(** * Delivery order price calculator: fee-range lookup, pricing and distance

    A shallow embedding of [services/delivery_cost.py] (function
    [process_total_cost]) and [services/distance_calculator.py] (function
    [calculate_distance]), with the properties of the fee-range lookup, the
    pricing arithmetic and the distance computation stated over it; and of
    [utils/validator.py], [services/venue_processor.py] and the copies of
    [process_total_cost] and [validate_inputs] in [main_simple.py].

    Conventions of the embedding:
    - Python [int] is [Z] (unbounded on both sides).
    - The pricing stage is given twice: [process_total_cost] computes the
      fee and the total over exact rationals ([Q]), which is what the lookup
      and the control flow need; [process_total_cost_float] computes them as
      Python does, in IEEE 754 double precision ([Double]).  The two agree on
      amounts up to [2^45].
    - The [float] values of the geodesy stage are idealised as real numbers
      ([R]): neither rounding nor overflow is modelled there.
    - The arguments of the validation functions are Python objects
      ([PyVal.value]), since the functions test their types at run time.
    - A dictionary with the fixed keys ['min'], ['max'], ['a'], ['b'] is a
      record; the empty output dictionary [{}] is [None].
    - Exceptions are values of [PyExc]; a computation that may raise returns
      a [result]. *)

From Stdlib Require Import String Ascii DecimalString.
From Stdlib Require Import ZArith QArith List Bool Lia.
From Stdlib Require Import Reals Lra Machin.
From Stdlib Require Import Sorting.Sorted Sorting.Permutation.
Import ListNotations.

Local Open Scope Z_scope.

(* ===================================================================== *)
(** ** Python primitives used by the two functions *)
(* ===================================================================== *)

Module Py.

(** The exception classes the handlers of the source tell apart. *)
Inductive PyExc : Type :=
| KeyError (msg : string)
| TypeError (msg : string)
| IndexError (msg : string)
| ValueError (msg : string)
| OverflowError (msg : string)
| ZeroDivisionError (msg : string).

(** [str(e)] for an exception value. *)
Definition exc_str (e : PyExc) : string :=
  match e with
  | KeyError m | TypeError m | IndexError m | ValueError m
  | OverflowError m | ZeroDivisionError m => m
  end.

Inductive result (A : Type) : Type :=
| Return (x : A)
| Raise (e : PyExc).
Arguments Return {A} x.
Arguments Raise {A} e.

Definition bind {A B} (m : result A) (k : A -> result B) : result B :=
  match m with
  | Return x => k x
  | Raise e => Raise e
  end.

(** [str(n)] for an integer: decimal digits, a leading minus sign when
    negative. *)
Definition str_int (n : Z) : string := NilZero.string_of_int (Z.to_int n).

(** [l[i]] on a list: a negative index counts from the end; out of range
    raises [IndexError]. *)
Definition getitem {A} (l : list A) (i : Z) : result A :=
  let n := Z.of_nat (length l) in
  let j := if i <? 0 then i + n else i in
  if j <? 0 then Raise (IndexError "list index out of range")
  else match nth_error l (Z.to_nat j) with
       | Some x => Return x
       | None => Raise (IndexError "list index out of range")
       end.

(** Replace position [k] of a list (no effect out of range; [setitem]
    guards the range). *)
Fixpoint update {A} (l : list A) (k : nat) (v : A) : list A :=
  match l, k with
  | [], _ => []
  | _ :: t, O => v :: t
  | h :: t, S k' => h :: update t k' v
  end.

(** [l[i] = v] on a list, with the same index rule as [getitem]. *)
Definition setitem {A} (l : list A) (i : Z) (v : A) : result (list A) :=
  let n := Z.of_nat (length l) in
  let j := if i <? 0 then i + n else i in
  if (j <? 0) || (n <=? j)
  then Raise (IndexError "list assignment index out of range")
  else Return (update l (Z.to_nat j) v).

(** [range(lo, hi)] as the list of its values. *)
Definition range (lo hi : Z) : list Z :=
  map (fun k => lo + Z.of_nat k) (seq 0 (Z.to_nat (hi - lo))).

(** [max(iterable)]: raises [ValueError] on an empty iterable. *)
Definition max_of (l : list Z) : result Z :=
  match l with
  | [] => Raise (ValueError "max() iterable argument is empty")
  | x :: t => Return (fold_left Z.max t x)
  end.

(** A [for] loop over a list whose body updates a state and may raise. *)
Fixpoint for_each {A S} (xs : list A) (body : A -> S -> result S) (s : S)
  : result S :=
  match xs with
  | [] => Return s
  | x :: xs' =>
      match body x s with
      | Return s' => for_each xs' body s'
      | Raise e => Raise e
      end
  end.

(** [sorted(l, key=key)]: a stable sort that compares keys with [<] only.
    Every stable sort returns the same list; insertion sort is the model. *)
Section Sorted.
Context {A K : Type} (key : A -> K) (key_lt : K -> K -> bool).

Fixpoint insert (x : A) (l : list A) : list A :=
  match l with
  | [] => [x]
  | y :: l' =>
      if key_lt (key y) (key x) then y :: insert x l' else x :: y :: l'
  end.

Fixpoint sorted (l : list A) : list A :=
  match l with
  | [] => []
  | x :: l' => insert x (sorted l')
  end.
End Sorted.

(** [<] on tuples [(bool, int)]: lexicographic, [False < True]. *)
Definition tuple_lt (k1 k2 : bool * Z) : bool :=
  match k1, k2 with
  | (b1, m1), (b2, m2) =>
      if Bool.eqb b1 b2 then m1 <? m2 else negb b1
  end.

(** The loop of [bisect.bisect_right(a, x)]:
    [while lo < hi: mid = (lo + hi) // 2;
       if x < a[mid]: hi = mid else: lo = mid + 1].
    [fuel] bounds the number of iterations; [None] is fuel exhausted (or an
    index out of the list, which the loop never produces). *)
Fixpoint bisect_loop (fuel : nat) (a : list Z) (x : Z) (lo hi : nat)
  : option nat :=
  match fuel with
  | O => None
  | S fuel' =>
      if (lo <? hi)%nat then
        let mid := ((lo + hi) / 2)%nat in
        match nth_error a mid with
        | Some v =>
            if x <? v then bisect_loop fuel' a x lo mid
            else bisect_loop fuel' a x (S mid) hi
        | None => None
        end
      else Some lo
  end.

Definition bisect_right (a : list Z) (x : Z) : option nat :=
  bisect_loop (S (length a)) a x 0 (length a).

(** [int(x)] on a float: truncation toward zero. *)
Definition int_of (x : Q) : Z := Z.quot (Qnum x) (Zpos (Qden x)).

End Py.

Import Py.

Notation "x <- m ;; k" := (Py.bind m (fun x => k))
  (at level 61, m at next level, right associativity).

(* ===================================================================== *)
(** ** Configuration constants *)
(* ===================================================================== *)

(** Modelled from the spec: [config/config.yaml] is not part of the source
    tree; the status codes are the ones the docstrings of both functions
    give, "SUCCESS (200) or FAILURE (400)". *)
Definition SUCCESS : Z := 200.
Definition FAILURE : Z := 400.

(** Modelled from the spec: the method selectors of [calculate_distance],
    from its docstring, "0 (SIMPLE)" and "1 (HAVERSINE)". *)
Definition SIMPLE : Z := 0.
Definition HAVERSINE : Z := 1.

(** The [method] argument of [process_total_cost] is compared with the three
    configuration constants [O_n], [O_1] and [O_Log_n] in that order; the
    constants are taken to be pairwise distinct, every other value is
    [OtherMethod]. *)
Inductive Method : Type :=
| O_n
| O_1
| O_Log_n
| OtherMethod (name : string).

(* ===================================================================== *)
(** ** Data model *)
(* ===================================================================== *)

(** One entry of [distance_ranges_dict]. *)
Record DistanceRange : Type := mkRange {
  r_min : Z;
  r_max : Z;
  r_a : Z;
  r_b : Z
}.

Record Delivery : Type := mkDelivery {
  fee : Z;
  distance : Z
}.

(** The [endpoint_response] dictionary. *)
Record EndpointResponse : Type := mkResponse {
  total_price : Z;
  small_order_surcharge : Z;
  cart_value : Z;
  delivery : Delivery
}.

(* ===================================================================== *)
(** ** services/delivery_cost.py *)
(* ===================================================================== *)

(** What the lookup stage of [process_total_cost] leaves behind: values for
    [a] and [b], the early [return {}, FAILURE, delivery_error], or an
    exception. *)
Inductive Lookup : Type :=
| Found (a b : Z)
| OutOfRange
| Raised (e : PyExc).

(** An entry that is not the sentinel. *)
Definition finite_max (r : DistanceRange) : Prop := r_max r <> 0.

(** Orders on the [max] values of two entries. *)
Definition max_le (x y : DistanceRange) : Prop := r_max x <= r_max y.
Definition max_lt (x y : DistanceRange) : Prop := r_max x < r_max y.

(** Whether a distance lies within the closed interval [[min, max]] of an
    entry: the meters [range(r['min'], r['max'] + 1)] writes for it. *)
Definition covers (d : Z) (r : DistanceRange) : bool :=
  (r_min r <=? d) && (d <=? r_max r).

(** [key=lambda x: (x['max'] == 0, x['max'])] *)
Definition sort_key (x : DistanceRange) : bool * Z := (r_max x =? 0, r_max x).

Definition sort_ranges (l : list DistanceRange) : list DistanceRange :=
  sorted sort_key tuple_lt l.

(** The test [x['max'] == 0] of the sort key and of the linear scan. *)
Definition is_sentinel (r : DistanceRange) : bool := r_max r =? 0.

(** [x] does not have to come after [y]: the key of [y] is not below the key
    of [x]. *)
Definition key_le (x y : DistanceRange) : Prop :=
  tuple_lt (sort_key y) (sort_key x) = false.

(** Method [O_n]: the [for] loop over the sorted ranges.  Falling off the end
    of the list leaves [a = 0], [b = 0]. *)
Fixpoint linear_scan (ranges : list DistanceRange) (dist : Z) : Lookup :=
  match ranges with
  | [] => Found 0 0
  | dist_range :: rest =>
      if r_max dist_range =? 0 then OutOfRange
      else
        let temp_distance := dist - r_max dist_range in
        if temp_distance <=? 0 then Found (r_a dist_range) (r_b dist_range)
        else linear_scan rest dist
  end.

(** Method [O_1]: the two nested loops that fill [lookup_table]. *)
Definition fill_table (ranges : list DistanceRange)
    (table : list (option (Z * Z))) : result (list (option (Z * Z))) :=
  for_each ranges
    (fun r t =>
       for_each (range (r_min r) (r_max r + 1))
         (fun d t' => setitem t' d (Some (r_a r, r_b r))) t)
    table.

Definition table_lookup (ranges : list DistanceRange) (dist : Z) : Lookup :=
  match
    (max_distance <- max_of (map r_max ranges) ;;
     lookup_table <- fill_table ranges
                       (repeat None (Z.to_nat (max_distance + 1))) ;;
     if dist <=? max_distance then getitem lookup_table dist
     else Return None)
  with
  | Raise e => Raised e
  | Return None => OutOfRange
  | Return (Some (a, b)) => Found a b
  end.

(** Method [O_Log_n]: [bisect_right] over the list of [max] values, then the
    entry at [index - 1] (for [index = 0] that is [distance_ranges_dict[-1]],
    the last entry).  [bisect_right] always returns an index
    ([bisect_right_total] below), so its [None] branch is never taken. *)
Definition binary_search (ranges : list DistanceRange) (dist : Z) : Lookup :=
  let max_values := map r_max ranges in
  match bisect_right max_values dist with
  | None => Raised (IndexError "list index out of range")
  | Some index =>
      if (index =? length max_values)%nat then OutOfRange
      else
        match getitem ranges (Z.of_nat index - 1) with
        | Return dist_range => Found (r_a dist_range) (r_b dist_range)
        | Raise e => Raised e
        end
  end.

(** The [if method == O_n: ... elif method == O_1: ... elif method ==
    O_Log_n: ...] chain; no branch is taken for another method, which leaves
    [a = 0], [b = 0]. *)
Definition lookup (method : Method) (ranges : list DistanceRange) (dist : Z)
  : Lookup :=
  match method with
  | O_n => linear_scan ranges dist
  | O_1 => table_lookup ranges dist
  | O_Log_n => binary_search ranges dist
  | OtherMethod _ => Found 0 0
  end.

(** [delivery_fee = a + (b * distance) / 10 + base_price_delivery_fee],
    with [/] the true division. *)
Definition delivery_fee_of (a b dist base_price_delivery_fee : Z) : Q :=
  (inject_Z a + inject_Z (b * dist) / inject_Z 10
   + inject_Z base_price_delivery_fee)%Q.

(** Lines 101-114 over exact numbers: the surcharge, the fee, the total and
    the response, without the rounding of the float operations.
    [price_breakdown_float] below is the same computation in double
    precision. *)
Definition price_breakdown
    (cart dist order_minimum_no_surcharge base_price_delivery_fee a b : Z)
  : EndpointResponse :=
  let surcharge := Z.max 0 (order_minimum_no_surcharge - cart) in
  let delivery_fee := delivery_fee_of a b dist base_price_delivery_fee in
  let total := (inject_Z (cart + surcharge) + delivery_fee)%Q in
  {| total_price := int_of total;
     small_order_surcharge := surcharge;
     cart_value := cart;
     delivery := {| fee := int_of delivery_fee; distance := dist |} |}.

Definition delivery_error_message (within : Z) : string :=
  ("Delivery is not possible. Distance is out of delivery range. You should be within "
   ++ str_int within ++ " meters")%string.

(** The three [except] clauses. *)
Definition handle_exception (e : PyExc) : option EndpointResponse * Z * string :=
  match e with
  | KeyError _ =>
      (None, FAILURE,
       ("Key error while processing distance ranges: " ++ exc_str e)%string)
  | TypeError _ =>
      (None, FAILURE,
       ("Type error while processing inputs: " ++ exc_str e)%string)
  | _ =>
      (None, FAILURE, ("An unexpected error occurred: " ++ exc_str e)%string)
  end.

Definition process_total_cost
    (cart dist order_minimum_no_surcharge base_price_delivery_fee : Z)
    (distance_ranges_dict : list DistanceRange) (method : Method)
  : option EndpointResponse * Z * string :=
  let distance_ranges_dict := sort_ranges distance_ranges_dict in
  match getitem distance_ranges_dict (-2) with
  | Raise e => handle_exception e
  | Return second_last =>
      let delivery_error := delivery_error_message (r_max second_last) in
      match lookup method distance_ranges_dict dist with
      | OutOfRange => (None, FAILURE, delivery_error)
      | Raised e => handle_exception e
      | Found a b =>
          (Some (price_breakdown cart dist order_minimum_no_surcharge
                   base_price_delivery_fee a b),
           SUCCESS, "Successfully calculated total cost."%string)
      end
  end.

(** The schedule of the test suite and of the specification's scenarios. *)
Definition test_schedule : list DistanceRange :=
  [ mkRange 0 500 0 0; mkRange 500 1000 100 0; mkRange 1000 1500 200 0;
    mkRange 1500 2000 200 1; mkRange 2000 0 0 0 ].

(* ===================================================================== *)
(** ** services/distance_calculator.py *)
(* ===================================================================== *)

Module Geo.
Local Open Scope R_scope.

(** [math.radians(x)] *)
Definition radians (x : R) : R := x * (PI / 180).

(** [math.sqrt(x)]: raises [ValueError] on a negative argument. *)
Definition math_sqrt (x : R) : result R :=
  if Rlt_dec x 0 then Raise (ValueError "math domain error")
  else Return (sqrt x).

(** [math.atan2(y, x)]: the angle of the point [(x, y)], in [(-pi, pi]]. *)
Definition atan2 (y x : R) : R :=
  if Rlt_dec 0 x then atan (y / x)
  else if Rlt_dec x 0 then
    (if Rle_dec 0 y then atan (y / x) + PI else atan (y / x) - PI)
  else if Rlt_dec 0 y then PI / 2
  else if Rlt_dec y 0 then - (PI / 2)
  else 0.

(** [round(x)] with one argument: the nearest integer, a tie going to the
    even one. *)
Definition round (x : R) : Z :=
  let f := Int_part x in
  let r := x - IZR f in
  if Rlt_dec r (1 / 2) then f
  else if Rlt_dec (1 / 2) r then (f + 1)%Z
  else if Z.even f then f else (f + 1)%Z.

(** The body of the [if method == HAVERSINE] branch up to [distance_m]. *)
Definition haversine_m (user_lat user_lon venue_lat venue_lon : R)
  : result R :=
  let user_lat := radians user_lat in
  let user_lon := radians user_lon in
  let venue_lat := radians venue_lat in
  let venue_lon := radians venue_lon in
  let delta_lat := venue_lat - user_lat in
  let delta_lon := venue_lon - user_lon in
  let a := sin (delta_lat / 2) ^ 2
           + cos user_lat * cos venue_lat * sin (delta_lon / 2) ^ 2 in
  sa <- math_sqrt a ;;
  sb <- math_sqrt (1 - a) ;;
  let c := 2 * atan2 sa sb in
  let R := 6371 * 1000 in
  Return (R * c).

(** The body of the [elif method == SIMPLE] branch up to [distance_m], over
    the real numbers: the [OverflowError] that [** 2] raises on a float
    whose square leaves the range of a double has no counterpart here. *)
Definition simple_m (user_lat user_lon venue_lat venue_lon : R)
  : result R :=
  let km_per_degree_lat := 111.32 in
  let km_per_degree_lon := 111.32 in
  let delta_lat := venue_lat - user_lat in
  let delta_lon := venue_lon - user_lon in
  let y_distance := delta_lat * km_per_degree_lat in
  let x_distance := delta_lon * km_per_degree_lon * cos (radians user_lat) in
  distance_km <- math_sqrt (x_distance ^ 2 + y_distance ^ 2) ;;
  Return (distance_km * 1000).

Definition invalid_method_message (method : Z) : string :=
  ("Invalid calculation method: " ++ str_int method
   ++ ". Use 0 (SIMPLE) or 1 (HAVERSINE).")%string.

(** The [except Exception] clause. *)
Definition on_exception (e : PyExc) : Z * Z * string :=
  (0%Z, FAILURE,
   ("An error occurred during distance calculation: " ++ exc_str e)%string).

Definition calculate_distance
    (user_lat user_lon venue_lat venue_lon : R) (method : Z)
  : Z * Z * string :=
  if (method =? HAVERSINE)%Z then
    match haversine_m user_lat user_lon venue_lat venue_lon with
    | Return distance_m =>
        (round distance_m, SUCCESS,
         "Distance calculated using Haversine formula."%string)
    | Raise e => on_exception e
    end
  else if (method =? SIMPLE)%Z then
    match simple_m user_lat user_lon venue_lat venue_lon with
    | Return distance_m =>
        (round distance_m, SUCCESS,
         "Distance calculated using the simple Pythagorean theorem."%string)
    | Raise e => on_exception e
    end
  else (0%Z, FAILURE, invalid_method_message method).

End Geo.

(* ===================================================================== *)
(** ** String and JSON values *)
(* ===================================================================== *)

Module PyStr.

(** [s.split(sep)] for a one-character separator: the pieces between the
    separators, at least one piece (the whole string when it holds no
    separator, an empty piece after a trailing separator). *)
Fixpoint split (sep : ascii) (s : string) : list string :=
  match s with
  | EmptyString => [EmptyString]
  | String c s' =>
      if Ascii.eqb c sep then EmptyString :: split sep s'
      else match split sep s' with
           | [] => [String c EmptyString]
           | piece :: pieces => String c piece :: pieces
           end
  end.

(** [s.lower()] on ASCII text: the letters [A]-[Z] go to [a]-[z], every other
    character stays. *)
Definition lower_char (c : ascii) : ascii :=
  let n := nat_of_ascii c in
  if ((65 <=? n) && (n <=? 90))%nat then ascii_of_nat (n + 32) else c.

Fixpoint lower (s : string) : string :=
  match s with
  | EmptyString => EmptyString
  | String c s' => String (lower_char c) (lower s')
  end.

(** Whether a character occurs in a string. *)
Fixpoint has_char (c : ascii) (s : string) : bool :=
  match s with
  | EmptyString => false
  | String c' s' => Ascii.eqb c' c || has_char c s'
  end.

End PyStr.

Module Json.

#[local] Set Warnings "-register-all".

(** A value as [response.json()] builds it.  A dictionary is the list of its
    items, each key once. *)
Inductive json : Type :=
| JNull
| JBool (b : bool)
| JInt (z : Z)
| JFloat (q : Q)
| JStr (s : string)
| JList (items : list json)
| JDict (items : list (string * json)).

Fixpoint assoc (k : string) (items : list (string * json)) : option json :=
  match items with
  | [] => None
  | (k', v) :: rest => if String.eqb k' k then Some v else assoc k rest
  end.

Definition not_subscriptable (type_name : string) : PyExc :=
  TypeError ("'" ++ type_name ++ "' object is not subscriptable")%string.

(** [v[k]] for a string key [k]: the item of a dictionary ([KeyError] with
    the quoted key when absent), a [TypeError] on every other value. *)
Definition getkey (v : json) (k : string) : result json :=
  match v with
  | JDict items =>
      match assoc k items with
      | Some x => Return x
      | None => Raise (KeyError ("'" ++ k ++ "'")%string)
      end
  | JList _ =>
      Raise (TypeError "list indices must be integers or slices, not str")
  | JStr _ => Raise (TypeError "string indices must be integers, not 'str'")
  | JNull => Raise (not_subscriptable "NoneType")
  | JBool _ => Raise (not_subscriptable "bool")
  | JInt _ => Raise (not_subscriptable "int")
  | JFloat _ => Raise (not_subscriptable "float")
  end.

(** [s[i]] on a string: the one-character string at that position. *)
Definition char_at (s : string) (i : Z) : result json :=
  let n := Z.of_nat (String.length s) in
  let j := if i <? 0 then i + n else i in
  if j <? 0 then Raise (IndexError "string index out of range")
  else match String.get (Z.to_nat j) s with
       | Some c => Return (JStr (String c EmptyString))
       | None => Raise (IndexError "string index out of range")
       end.

(** [v[i]] for an integer [i]: the element of a list, the character of a
    string, a [KeyError] on a dictionary (its keys are strings), a
    [TypeError] on every other value. *)
Definition getindex (v : json) (i : Z) : result json :=
  match v with
  | JList items => getitem items i
  | JStr s => char_at s i
  | JDict _ => Raise (KeyError (str_int i))
  | JNull => Raise (not_subscriptable "NoneType")
  | JBool _ => Raise (not_subscriptable "bool")
  | JInt _ => Raise (not_subscriptable "int")
  | JFloat _ => Raise (not_subscriptable "float")
  end.

End Json.

(* ===================================================================== *)
(** ** services/venue_processor.py *)
(* ===================================================================== *)

Module Venue.
Import PyStr Json.

Section Config.
(** The two tables of [config/config.yaml], which is not part of the source
    tree: [cities_acronym] from a lower-case city name to a country code,
    [countries_api] from a country code to a dictionary of links. *)
Variable cities_acronym : string -> option string.
Variable countries_api : string -> option (string -> option string).
(** [str.lower], which lowers the cased letters of every script;
    [PyStr.lower] is what it does on ASCII text. *)
Variable str_lower : string -> string.

Definition process_venue_slug (venue_slug : string) : string * Z * string :=
  match getitem (split "-" venue_slug) (-1) with
  | Raise e =>
      (EmptyString, FAILURE,
       ("An error occurred while processing venue_slug '" ++ venue_slug
        ++ "': " ++ exc_str e)%string)
  | Return venue_city =>
      match cities_acronym (str_lower venue_city) with
      | None =>
          (EmptyString, FAILURE,
           ("Invalid venue city extracted from slug: " ++ venue_city)%string)
      | Some venue_country =>
          (venue_country, SUCCESS,
           ("Extracted country code '" ++ venue_country
            ++ "' for venue city '" ++ venue_city ++ "'.")%string)
      end
  end.

Definition api_links_error (venue_country : string) (e : PyExc)
  : string * string * Z * string :=
  (EmptyString, EmptyString, FAILURE,
   ("An error occurred while retrieving API links for country '"
    ++ venue_country ++ "': " ++ exc_str e)%string).

Definition location_api_link_return (venue_country : string)
  : string * string * Z * string :=
  match countries_api venue_country with
  | None =>
      (EmptyString, EmptyString, FAILURE,
       ("Invalid venue country code: " ++ venue_country)%string)
  | Some dict_country_api =>
      match dict_country_api "static"%string with
      | None => api_links_error venue_country (KeyError "'static'")
      | Some static_link =>
          match dict_country_api "dynamic"%string with
          | None => api_links_error venue_country (KeyError "'dynamic'")
          | Some dynamic_link =>
              (static_link, dynamic_link, SUCCESS,
               ("Retrieved API links for country code '" ++ venue_country
                ++ "'.")%string)
          end
      end
  end.

End Config.

(** The three [except] clauses of [extract_static_coordinates]. *)
Definition static_error (e : PyExc) : json * json * Z * string :=
  match e with
  | KeyError _ =>
      (JFloat 0, JFloat 0, FAILURE,
       ("Key error while accessing static data: " ++ exc_str e)%string)
  | TypeError _ =>
      (JFloat 0, JFloat 0, FAILURE,
       ("Type error while processing static data: " ++ exc_str e)%string)
  | _ =>
      (JFloat 0, JFloat 0, FAILURE,
       ("An unexpected error occurred: " ++ exc_str e)%string)
  end.

Definition extract_static_coordinates (static_data : json)
  : json * json * Z * string :=
  match
    (venue_raw <- getkey static_data "venue_raw" ;;
     location <- getkey venue_raw "location" ;;
     coordinates <- getkey location "coordinates" ;;
     coordinates_lon <- getindex coordinates 0 ;;
     coordinates_lat <- getindex coordinates 1 ;;
     Return (coordinates_lon, coordinates_lat))
  with
  | Return (coordinates_lon, coordinates_lat) =>
      (coordinates_lon, coordinates_lat, SUCCESS,
       "Successfully extracted coordinates from static data."%string)
  | Raise e => static_error e
  end.

(** The three [except] clauses of [extract_delivery_specs]. *)
Definition specs_error (e : PyExc) : json * json * json * Z * string :=
  match e with
  | KeyError _ =>
      (JInt 0, JInt 0, JList [], FAILURE,
       ("Key error while accessing delivery specifications: "
        ++ exc_str e)%string)
  | TypeError _ =>
      (JInt 0, JInt 0, JList [], FAILURE,
       ("Type error while processing delivery specifications: "
        ++ exc_str e)%string)
  | _ =>
      (JInt 0, JInt 0, JList [], FAILURE,
       ("An unexpected error occurred: " ++ exc_str e)%string)
  end.

Definition extract_delivery_specs (dynamic_data : json)
  : json * json * json * Z * string :=
  match
    (venue_raw <- getkey dynamic_data "venue_raw" ;;
     delivery_specs <- getkey venue_raw "delivery_specs" ;;
     order_minimum_no_surcharge <-
       getkey delivery_specs "order_minimum_no_surcharge" ;;
     venue_raw <- getkey dynamic_data "venue_raw" ;;
     delivery_specs <- getkey venue_raw "delivery_specs" ;;
     delivery_pricing <- getkey delivery_specs "delivery_pricing" ;;
     base_price_delivery_fee <- getkey delivery_pricing "base_price" ;;
     venue_raw <- getkey dynamic_data "venue_raw" ;;
     delivery_specs <- getkey venue_raw "delivery_specs" ;;
     delivery_pricing <- getkey delivery_specs "delivery_pricing" ;;
     distance_ranges_dict <- getkey delivery_pricing "distance_ranges" ;;
     Return (order_minimum_no_surcharge, base_price_delivery_fee,
             distance_ranges_dict))
  with
  | Return (order_minimum_no_surcharge, base_price_delivery_fee,
            distance_ranges_dict) =>
      (order_minimum_no_surcharge, base_price_delivery_fee,
       distance_ranges_dict, SUCCESS,
       "Successfully extracted delivery specifications from dynamic data."%string)
  | Raise e => specs_error e
  end.

End Venue.

(* ===================================================================== *)
(** ** Double-precision arithmetic *)
(* ===================================================================== *)

(** The values of Python's [float] (IEEE 754 binary64) and the operations
    the pricing stage applies to them.  A finite float is the rational it
    denotes; the sign of a zero is not kept, no operation used here can
    observe it.  Every operation rounds its exact result to the nearest
    float, a tie to the even significand. *)
Module Double.

Inductive float : Type :=
| Finite (q : Q)
| Infinity (negative : bool)
| NaN.

(** [n / d] rounded to the nearest integer, a tie to the even one
    ([d > 0]). *)
Definition round_half_even (n d : Z) : Z :=
  let q := n / d in
  let r := n mod d in
  if 2 * r <? d then q
  else if d <? 2 * r then q + 1
  else if Z.even q then q else q + 1.

(** The integer part of the binary logarithm of [n / d] ([n, d > 0]). *)
Definition floor_log2 (n d : Z) : Z :=
  let e0 := Z.log2 n - Z.log2 d in
  let below :=
    if 0 <=? e0 then n <? d * 2 ^ e0 else n * 2 ^ (- e0) <? d in
  if below then e0 - 1 else e0.

(** The exponent of the unit in the last place for a value with binary
    logarithm [e]: 53 significant bits, subnormal below [2^-1022]. *)
Definition ulp_exponent (e : Z) : Z := Z.max (e - 52) (-1074).

(** Rounding a rational to a float: to a multiple of the unit in the last
    place, to an infinity from [2^1024] on. *)
Definition round (x : Q) : float :=
  let n := Qnum x in
  let d := Zpos (Qden x) in
  if n =? 0 then Finite 0
  else
    let u := ulp_exponent (floor_log2 (Z.abs n) d) in
    let m := if 0 <=? u then round_half_even n (d * 2 ^ u)
             else round_half_even (n * 2 ^ (- u)) d in
    if 0 <=? u then
      if 2 ^ 1024 <=? Z.abs m * 2 ^ u then Infinity (m <? 0)
      else Finite (inject_Z (m * 2 ^ u))
    else Finite (Qmake m (Z.to_pos (2 ^ (- u)))).

(** [float(n)] as the arithmetic operators apply it to an [int] operand. *)
Definition of_int (n : Z) : result float :=
  match round (inject_Z n) with
  | Finite q => Return (Finite q)
  | _ => Raise (OverflowError "int too large to convert to float")
  end.

(** [a / b] on two [int]s: the correctly rounded quotient. *)
Definition true_divide (a b : Z) : result float :=
  if b =? 0 then Raise (ZeroDivisionError "division by zero")
  else
    let x := if 0 <? b then Qmake a (Z.to_pos b)
             else Qmake (- a) (Z.to_pos (- b)) in
    match round x with
    | Finite q => Return (Finite q)
    | _ => Raise (OverflowError "integer division result too large for a float")
    end.

(** [x + y] on two floats. *)
Definition add (x y : float) : float :=
  match x, y with
  | Finite p, Finite q => round (p + q)
  | Finite _, Infinity s | Infinity s, Finite _ => Infinity s
  | Infinity s, Infinity t => if Bool.eqb s t then Infinity s else NaN
  | NaN, _ | _, NaN => NaN
  end.

(** [int(x)] on a float: truncation toward zero. *)
Definition to_int (x : float) : result Z :=
  match x with
  | Finite q => Return (int_of q)
  | Infinity _ => Raise (OverflowError "cannot convert float infinity to integer")
  | NaN => Raise (ValueError "cannot convert float NaN to integer")
  end.

(** [n + x] and [x + n] for an [int] [n] and a float [x]: the [int] is
    converted first. *)
Definition add_int (n : Z) (x : float) : result float :=
  fn <- of_int n ;; Return (add fn x).

End Double.


(** Lines 101-114 of [services/delivery_cost.py] with the arithmetic as
    Python performs it: [(b * distance) / 10] is a float, and so are the fee
    and the total; the conversions and divisions that leave the range of
    floats raise [OverflowError]. *)
Definition price_breakdown_float
    (cart dist order_minimum_no_surcharge base_price_delivery_fee a b : Z)
  : result EndpointResponse :=
  let small_order_surcharge := Z.max 0 (order_minimum_no_surcharge - cart) in
  tenth <- Double.true_divide (b * dist) 10 ;;
  partial_fee <- Double.add_int a tenth ;;
  delivery_fee <- Double.add_int base_price_delivery_fee partial_fee ;;
  total_price <- Double.add_int (cart + small_order_surcharge) delivery_fee ;;
  total_int <- Double.to_int total_price ;;
  fee_int <- Double.to_int delivery_fee ;;
  Return {| total_price := total_int;
            small_order_surcharge := small_order_surcharge;
            cart_value := cart;
            delivery := {| fee := fee_int; distance := dist |} |}.

(** [process_total_cost] with the pricing of [price_breakdown_float]: an
    exception of the arithmetic reaches the [except] clauses like any
    other. *)
Definition process_total_cost_float
    (cart dist order_minimum_no_surcharge base_price_delivery_fee : Z)
    (distance_ranges_dict : list DistanceRange) (method : Method)
  : option EndpointResponse * Z * string :=
  let distance_ranges_dict := sort_ranges distance_ranges_dict in
  match getitem distance_ranges_dict (-2) with
  | Raise e => handle_exception e
  | Return second_last =>
      let delivery_error := delivery_error_message (r_max second_last) in
      match lookup method distance_ranges_dict dist with
      | OutOfRange => (None, FAILURE, delivery_error)
      | Raised e => handle_exception e
      | Found a b =>
          match price_breakdown_float cart dist order_minimum_no_surcharge
                  base_price_delivery_fee a b with
          | Return endpoint_response =>
              (Some endpoint_response, SUCCESS,
               "Successfully calculated total cost."%string)
          | Raise e => handle_exception e
          end
      end
  end.

(* ===================================================================== *)
(** ** utils/validator.py *)
(* ===================================================================== *)

(** The validation functions are annotated with [str], [int] and [float],
    but they test their arguments at run time (truth value, [isinstance],
    comparison with an integer), so an argument is a Python object of any of
    the built-in kinds. *)
Module PyVal.
Import Json.

Inductive value : Type :=
| VNone
| VBool (b : bool)
| VInt (z : Z)
| VFloat (x : Double.float)
| VStr (s : string)
| VList (items : list json)
| VDict (items : list (string * json)).

(** [type(v).__name__] *)
Definition type_name (v : value) : string :=
  match v with
  | VNone => "NoneType"
  | VBool _ => "bool"
  | VInt _ => "int"
  | VFloat _ => "float"
  | VStr _ => "str"
  | VList _ => "list"
  | VDict _ => "dict"
  end.

(** The truth value of an object: [None], [False], zero and the empty
    string, list and dictionary are false; a NaN is true. *)
Definition truthy (v : value) : bool :=
  match v with
  | VNone => false
  | VBool b => b
  | VInt z => negb (z =? 0)
  | VFloat (Double.Finite q) => negb (Qeq_bool q 0)
  | VFloat _ => true
  | VStr s => negb (String.eqb s EmptyString)
  | VList items => match items with [] => false | _ :: _ => true end
  | VDict items => match items with [] => false | _ :: _ => true end
  end.

(** [isinstance(v, str)] *)
Definition isinstance_str (v : value) : bool :=
  match v with VStr _ => true | _ => false end.

(** [isinstance(v, int)]: [bool] is a subclass of [int]. *)
Definition isinstance_int (v : value) : bool :=
  match v with VInt _ | VBool _ => true | _ => false end.

(** The number an object is in a comparison, when it is one: [True] is 1 and
    [False] is 0; an integer is compared by its exact value, whatever its
    size. *)
Definition number (v : value) : option Double.float :=
  match v with
  | VBool b => Some (Double.Finite (if b then 1 else 0))
  | VInt z => Some (Double.Finite (inject_Z z))
  | VFloat x => Some x
  | _ => None
  end.

(** [x <= y] on numbers: false as soon as one of them is a NaN. *)
Definition float_le (x y : Double.float) : bool :=
  match x, y with
  | Double.NaN, _ | _, Double.NaN => false
  | Double.Infinity true, _ => true
  | _, Double.Infinity false => true
  | Double.Infinity false, _ => false
  | _, Double.Infinity true => false
  | Double.Finite p, Double.Finite q => Qle_bool p q
  end.

(** [x < y] on numbers. *)
Definition float_lt (x y : Double.float) : bool :=
  match x, y with
  | Double.NaN, _ | _, Double.NaN => false
  | Double.Infinity true, Double.Infinity true => false
  | Double.Infinity true, _ => true
  | Double.Infinity false, _ => false
  | Double.Finite _, Double.Infinity negative => negb negative
  | Double.Finite p, Double.Finite q => negb (Qle_bool q p)
  end.

(** The [TypeError] of a comparison neither operand implements. *)
Definition unsupported (op left right : string) : PyExc :=
  TypeError ("'" ++ op ++ "' not supported between instances of '" ++ left
             ++ "' and '" ++ right ++ "'")%string.

(** [n <= v] for an integer literal [n]. *)
Definition int_le (n : Z) (v : value) : result bool :=
  match number v with
  | Some x => Return (float_le (Double.Finite (inject_Z n)) x)
  | None => Raise (unsupported "<=" "int" (type_name v))
  end.

(** [v <= n] for an integer literal [n]. *)
Definition le_int (v : value) (n : Z) : result bool :=
  match number v with
  | Some x => Return (float_le x (Double.Finite (inject_Z n)))
  | None => Raise (unsupported "<=" (type_name v) "int")
  end.

(** [v < n] for an integer literal [n]. *)
Definition lt_int (v : value) (n : Z) : result bool :=
  match number v with
  | Some x => Return (float_lt x (Double.Finite (inject_Z n)))
  | None => Raise (unsupported "<" (type_name v) "int")
  end.

(** The chained comparison [lo <= v <= hi]: the second comparison is made
    only when the first holds. *)
Definition between (lo : Z) (v : value) (hi : Z) : result bool :=
  first <- int_le lo v ;;
  if first then le_int v hi else Return false.

Section Formatting.
(** The text [repr] gives for a finite float, and for a list or a
    dictionary. *)
Variable float_repr : Q -> string.
Variable container_repr : value -> string.

(** [f"{v}"], which is [str(v)]. *)
Definition py_str (v : value) : string :=
  match v with
  | VNone => "None"
  | VBool true => "True"
  | VBool false => "False"
  | VInt z => str_int z
  | VFloat (Double.Finite q) => float_repr q
  | VFloat (Double.Infinity false) => "inf"
  | VFloat (Double.Infinity true) => "-inf"
  | VFloat Double.NaN => "nan"
  | VStr s => s
  | VList _ | VDict _ => container_repr v
  end.

End Formatting.
End PyVal.

Module Validator.
Import PyVal.
Section Formatting.
Variable float_repr : Q -> string.
Variable container_repr : value -> string.

Definition validate_venue_slug (venue_slug : value) : bool * string :=
  if negb (truthy venue_slug) || negb (isinstance_str venue_slug)
  then (false, "Invalid venue_slug: It must be a non-empty string."%string)
  else (true, EmptyString).

(** [or] evaluates [cart_value < 0] only on an instance of [int]. *)
Definition validate_cart_value (cart_value : value) : result (bool * string) :=
  invalid <- (if negb (isinstance_int cart_value) then Return true
              else lt_int cart_value 0) ;;
  if (invalid : bool)
  then Return
         (false, "Invalid cart value: It must be a non-negative integer."%string)
  else Return (true, EmptyString).

Definition validate_coordinates (user_lat user_lon : value)
  : result (bool * string) :=
  lat_in <- between (-90) user_lat 90 ;;
  if negb lat_in
  then Return (false,
               ("Invalid latitude: "
                ++ py_str float_repr container_repr user_lat
                ++ ". It must be between -90 and 90.")%string)
  else
    lon_in <- between (-180) user_lon 180 ;;
    if negb lon_in
    then Return (false,
                 ("Invalid longitude: "
                  ++ py_str float_repr container_repr user_lon
                  ++ ". It must be between -180 and 180.")%string)
    else Return (true, EmptyString).

(** No [try] surrounds the checks: an exception of a comparison leaves
    [validate_inputs]. *)
Definition validate_inputs (venue_slug cart_value user_lat user_lon : value)
  : result (Z * string) :=
  let '(is_valid, error_message) := validate_venue_slug venue_slug in
  if negb is_valid then Return (FAILURE, error_message)
  else
    checked <- validate_cart_value cart_value ;;
    let '(is_valid, error_message) := checked in
    if negb is_valid then Return (FAILURE, error_message)
    else
      checked <- validate_coordinates user_lat user_lon ;;
      let '(is_valid, error_message) := checked in
      if negb is_valid then Return (FAILURE, error_message)
      else Return (SUCCESS, EmptyString).

End Formatting.
End Validator.

(** The status of a validation, or the exception that left it. *)
Definition status_of (r : result (Z * string)) : result Z :=
  outcome <- r ;; Return (fst outcome).

(* ===================================================================== *)
(** ** main_simple.py *)
(* ===================================================================== *)

(** The single-file variant of the service holds its own copies of
    [process_total_cost] and [validate_inputs].  The copy of
    [process_total_cost] has the same three lookups and the same pricing, but
    it neither sorts the schedule nor builds the message from the
    second-to-last entry. *)
Module MainSimple.

Definition out_of_range_message : string :=
  "Delivery is not possible for distances exceeding the defined maximum.".

Definition process_total_cost
    (cart dist order_minimum_no_surcharge base_price_delivery_fee : Z)
    (distance_ranges_dict : list DistanceRange) (method : Method)
  : option EndpointResponse * Z * string :=
  match lookup method distance_ranges_dict dist with
  | OutOfRange => (None, FAILURE, out_of_range_message)
  | Raised e => handle_exception e
  | Found a b =>
      (Some (price_breakdown cart dist order_minimum_no_surcharge
               base_price_delivery_fee a b),
       SUCCESS, "Successfully calculated total cost."%string)
  end.

(** The copy of [validate_inputs]: it tests the slug like the validator,
    but compares the cart value with 0 without asking for an [int], and
    reports both coordinates with one message. *)
Definition validate_inputs
    (venue_slug cart_value user_lat user_lon : PyVal.value)
  : result (Z * string) :=
  if negb (PyVal.truthy venue_slug) || negb (PyVal.isinstance_str venue_slug)
  then Return (FAILURE, "Invalid venue_slug"%string)
  else
    negative <- PyVal.lt_int cart_value 0 ;;
    if (negative : bool)
    then Return (FAILURE, "Cart value must be non-negative"%string)
    else
      lat_in <- PyVal.between (-90) user_lat 90 ;;
      outside <- (if negb lat_in then Return true
                  else lon_in <- PyVal.between (-180) user_lon 180 ;;
                       Return (negb lon_in)) ;;
      if (outside : bool)
      then Return (FAILURE, "Invalid latitude or longitude values"%string)
      else Return (SUCCESS, EmptyString).

End MainSimple.

(* ===================================================================== *)
(** ** Facts about the Python primitives *)
(* ===================================================================== *)

Section SortedFacts.
Context {A K : Type} (key : A -> K) (key_lt : K -> K -> bool).

Lemma insert_length (x : A) (l : list A) :
  length (insert key key_lt x l) = S (length l).
Proof.
  induction l as [|y l IH]; simpl; [reflexivity|].
  destruct (key_lt (key y) (key x)); simpl; congruence.
Qed.

Lemma sorted_length (l : list A) :
  length (sorted key key_lt l) = length l.
Proof.
  induction l as [|x l IH]; simpl; [reflexivity|].
  rewrite insert_length; congruence.
Qed.

Lemma insert_In (x z : A) (l : list A) :
  In z (insert key key_lt x l) <-> z = x \/ In z l.
Proof.
  induction l as [|y l IH]; simpl.
  - intuition congruence.
  - destruct (key_lt (key y) (key x)); simpl; rewrite ?IH; intuition congruence.
Qed.

Lemma sorted_In (z : A) (l : list A) :
  In z (sorted key key_lt l) <-> In z l.
Proof.
  induction l as [|x l IH]; simpl; [tauto|].
  rewrite insert_In, IH. intuition congruence.
Qed.

Lemma sorted_Forall (P : A -> Prop) (l : list A) :
  Forall P l -> Forall P (sorted key key_lt l).
Proof.
  rewrite !Forall_forall. intros H z Hz. apply H, sorted_In, Hz.
Qed.
End SortedFacts.

Lemma getitem_short {A} (l : list A) :
  (length l < 2)%nat ->
  getitem l (-2) = Raise (IndexError "list index out of range").
Proof.
  intros H. destruct l as [|x [|y l]]; simpl in H; try lia; reflexivity.
Qed.

Lemma getitem_second_last {A} (l : list A) (x y : A) :
  getitem (l ++ [x; y]) (-2) = Return x.
Proof.
  unfold getitem. rewrite length_app. simpl length.
  replace (-2 <? 0) with true by reflexivity.
  replace (-2 + Z.of_nat (length l + 2)) with (Z.of_nat (length l)) by lia.
  destruct (Z.ltb_spec (Z.of_nat (length l)) 0); [lia|].
  rewrite Nat2Z.id, nth_error_app2, Nat.sub_diag by lia. reflexivity.
Qed.

Lemma getitem_long {A} (l : list A) :
  (2 <= length l)%nat -> exists x, getitem l (-2) = Return x.
Proof.
  intros H.
  destruct (exists_last (l := l)) as [l1 [y ->]]; [intros ->; simpl in H; lia|].
  rewrite length_app in H; simpl in H.
  destruct (exists_last (l := l1)) as [l2 [x ->]]; [intros ->; simpl in H; lia|].
  exists x. rewrite <- app_assoc. apply getitem_second_last.
Qed.

(* ===================================================================== *)
(** ** The pricing arithmetic *)
(* ===================================================================== *)

(** Truncating the fee: the exact value is
    [(10 * (a + base) + b * dist) / 10]. *)
Lemma int_of_delivery_fee (a b dist base : Z) :
  int_of (delivery_fee_of a b dist base)
  = Z.quot (10 * (a + base) + b * dist) 10.
Proof.
  remember (10 * (a + base) + b * dist) as n eqn:En.
  unfold int_of, delivery_fee_of. simpl. f_equal. lia.
Qed.

Lemma int_of_total (c a b dist base : Z) :
  int_of (inject_Z c + delivery_fee_of a b dist base)%Q
  = Z.quot (10 * (c + a + base) + b * dist) 10.
Proof.
  remember (10 * (c + a + base) + b * dist) as n eqn:En.
  unfold int_of, delivery_fee_of. simpl. f_equal. lia.
Qed.

Lemma price_breakdown_flat (cart dist minv base a : Z) :
  price_breakdown cart dist minv base a 0
  = {| total_price := cart + Z.max 0 (minv - cart) + (a + base);
       small_order_surcharge := Z.max 0 (minv - cart);
       cart_value := cart;
       delivery := {| fee := a + base; distance := dist |} |}.
Proof.
  unfold price_breakdown. rewrite int_of_total, int_of_delivery_fee.
  rewrite !Z.mul_0_l, !Z.add_0_r, !(Z.mul_comm 10), !Z.quot_mul by lia.
  f_equal. lia.
Qed.

(** A successful result always carries the breakdown computed from the
    values the lookup found. *)
Lemma process_total_cost_success cart dist minv base ranges method r st msg :
  process_total_cost cart dist minv base ranges method = (Some r, st, msg) ->
  exists a b,
    lookup method (sort_ranges ranges) dist = Found a b
    /\ r = price_breakdown cart dist minv base a b
    /\ st = SUCCESS.
Proof.
  unfold process_total_cost.
  destruct (getitem (sort_ranges ranges) (-2)) as [x|e].
  - destruct (lookup method (sort_ranges ranges) dist) as [a b| |e].
    + intros H; inversion H; subst. exists a, b. auto.
    + discriminate.
    + destruct e; discriminate.
  - destruct e; discriminate.
Qed.

Lemma process_total_cost_found cart dist minv base ranges method a b :
  (2 <= length ranges)%nat ->
  lookup method (sort_ranges ranges) dist = Found a b ->
  process_total_cost cart dist minv base ranges method
  = (Some (price_breakdown cart dist minv base a b), SUCCESS,
     "Successfully calculated total cost."%string).
Proof.
  intros Hlen Hl. unfold process_total_cost.
  destruct (getitem_long (sort_ranges ranges)) as [x ->].
  - unfold sort_ranges. rewrite sorted_length. exact Hlen.
  - rewrite Hl. reflexivity.
Qed.

(* ===================================================================== *)
(** ** Sorting the schedule *)
(* ===================================================================== *)

Lemma tuple_lt_finite (x y : DistanceRange) :
  finite_max x -> finite_max y ->
  tuple_lt (sort_key y) (sort_key x) = (r_max y <? r_max x).
Proof.
  unfold finite_max, sort_key, tuple_lt. intros Hx Hy.
  apply Z.eqb_neq in Hx, Hy. rewrite Hx, Hy. reflexivity.
Qed.

Lemma tuple_lt_finite_sentinel (x s : DistanceRange) :
  finite_max x -> r_max s = 0 ->
  tuple_lt (sort_key x) (sort_key s) = true
  /\ tuple_lt (sort_key s) (sort_key x) = false.
Proof.
  unfold finite_max, sort_key, tuple_lt. intros Hx Hs.
  apply Z.eqb_neq in Hx. rewrite Hx, Hs. split; reflexivity.
Qed.

Lemma insert_before_sentinel (x s : DistanceRange) (F : list DistanceRange) :
  finite_max x -> r_max s = 0 ->
  insert sort_key tuple_lt x (F ++ [s]) = insert sort_key tuple_lt x F ++ [s].
Proof.
  intros Hx Hs. induction F as [|y F IH]; cbn [insert app sorted].
  - destruct (tuple_lt_finite_sentinel x s Hx Hs) as [_ ->]. reflexivity.
  - destruct (tuple_lt (sort_key y) (sort_key x)); cbn [insert app sorted]; [rewrite IH|];
      reflexivity.
Qed.

Lemma insert_sentinel_last (s : DistanceRange) (F : list DistanceRange) :
  r_max s = 0 -> Forall finite_max F ->
  insert sort_key tuple_lt s F = F ++ [s].
Proof.
  intros Hs HF. induction HF as [|y F Hy HF IH]; cbn [insert app sorted]; [reflexivity|].
  destruct (tuple_lt_finite_sentinel y s Hy Hs) as [-> _]. rewrite IH.
  reflexivity.
Qed.

(** The sentinel is moved behind every other entry, wherever it stood. *)
Lemma sort_sentinel_last (l1 l2 : list DistanceRange) (s : DistanceRange) :
  Forall finite_max (l1 ++ l2) -> r_max s = 0 ->
  sort_ranges (l1 ++ s :: l2) = sort_ranges (l1 ++ l2) ++ [s].
Proof.
  intros HF Hs. unfold sort_ranges. induction l1 as [|x l1 IH]; cbn [insert app sorted] in *.
  - apply insert_sentinel_last; [exact Hs|]. apply sorted_Forall, HF.
  - inversion HF as [|? ? Hx HF']; subst. rewrite (IH HF').
    apply insert_before_sentinel; assumption.
Qed.

Lemma insert_max_sorted (x : DistanceRange) (F : list DistanceRange) :
  finite_max x -> Forall finite_max F -> StronglySorted max_le F ->
  StronglySorted max_le (insert sort_key tuple_lt x F).
Proof.
  intros Hx HF HS. induction HS as [|y F HS IH Hy]; cbn [insert app sorted].
  - constructor; constructor.
  - inversion HF as [|? ? Hfy HF']; subst.
    rewrite (tuple_lt_finite x y Hx Hfy).
    destruct (Z.ltb_spec (r_max y) (r_max x)) as [Hlt|Hge].
    + constructor; [apply IH, HF'|].
      apply Forall_forall. intros z Hz.
      apply insert_In in Hz. destruct Hz as [->|Hz].
      * unfold max_le. lia.
      * rewrite Forall_forall in Hy. apply Hy, Hz.
    + constructor; [constructor; assumption|].
      constructor; [exact Hge|].
      eapply Forall_impl; [|exact Hy]. unfold max_le. intros; lia.
Qed.

(** Without a sentinel the sorted list is ascending in [max]. *)
Lemma sort_ranges_ascending (l : list DistanceRange) :
  Forall finite_max l -> StronglySorted max_le (sort_ranges l).
Proof.
  unfold sort_ranges. induction 1 as [|x l Hx HF IH]; cbn [insert app sorted].
  - constructor.
  - apply insert_max_sorted; [exact Hx|apply sorted_Forall, HF|exact IH].
Qed.

(** A list of finite tiers already ascending in [max] is left as it is. *)
Lemma sort_ranges_id (F : list DistanceRange) :
  Forall finite_max F -> StronglySorted max_lt F -> sort_ranges F = F.
Proof.
  unfold sort_ranges. intros HF HS.
  induction HS as [|x F HS IH Hx]; cbn [insert app sorted]; [reflexivity|].
  inversion HF as [|? ? Hfx HF']; subst. rewrite (IH HF').
  destruct F as [|y F]; cbn [insert app sorted]; [reflexivity|].
  inversion HF' as [|? ? Hfy _]; subst.
  inversion Hx as [|? ? Hxy _]; subst.
  rewrite (tuple_lt_finite x y Hfx Hfy).
  destruct (Z.ltb_spec (r_max y) (r_max x)); [unfold max_lt in Hxy; lia|].
  reflexivity.
Qed.

Lemma StronglySorted_last_max (F : list DistanceRange) (t : DistanceRange) :
  StronglySorted max_le (F ++ [t]) -> Forall (fun r => r_max r <= r_max t) (F ++ [t]).
Proof.
  induction F as [|x F IH]; cbn [insert app sorted]; intros HS.
  - constructor; [lia|constructor].
  - inversion HS as [|? ? HS' Hx]; subst. constructor.
    + rewrite Forall_forall in Hx. apply (Hx t), in_or_app. right. left. reflexivity.
    + apply IH, HS'.
Qed.

(* ===================================================================== *)
(** ** The three lookups *)
(* ===================================================================== *)

Lemma linear_scan_skip (pre rest : list DistanceRange) (d : Z) :
  Forall (fun p => r_max p <> 0 /\ r_max p < d) pre ->
  linear_scan (pre ++ rest) d = linear_scan rest d.
Proof.
  induction 1 as [|p pre [Hp Hd] _ IH]; simpl; [reflexivity|].
  apply Z.eqb_neq in Hp. rewrite Hp.
  destruct (Z.leb_spec (d - r_max p) 0); [lia|exact IH].
Qed.

Lemma linear_scan_hit (t : DistanceRange) (rest : list DistanceRange) (d : Z) :
  r_max t <> 0 -> d <= r_max t ->
  linear_scan (t :: rest) d = Found (r_a t) (r_b t).
Proof.
  intros Ht Hd. simpl. apply Z.eqb_neq in Ht. rewrite Ht.
  destruct (Z.leb_spec (d - r_max t) 0); [reflexivity|lia].
Qed.

Lemma linear_scan_sentinel (s : DistanceRange) (rest : list DistanceRange) (d : Z) :
  r_max s = 0 -> linear_scan (s :: rest) d = OutOfRange.
Proof. intros Hs. simpl. rewrite Hs. reflexivity. Qed.

(** A value the linear scan finds comes from a tier with a non-zero [max]
    that the distance does not exceed, or is the initial [(0, 0)] when the
    list holds no sentinel and every [max] is exceeded. *)
Lemma linear_scan_found (l : list DistanceRange) (d a b : Z) :
  linear_scan l d = Found a b ->
  (exists t, In t l /\ r_max t <> 0 /\ d <= r_max t /\ a = r_a t /\ b = r_b t)
  \/ (Forall (fun p => r_max p <> 0 /\ r_max p < d) l /\ a = 0 /\ b = 0).
Proof.
  induction l as [|t l IH]; simpl.
  - intros H; inversion H. right. auto.
  - destruct (Z.eqb_spec (r_max t) 0) as [|Hne]; [discriminate|].
    destruct (Z.leb_spec (d - r_max t) 0) as [Hle|Hgt].
    + intros H; inversion H; subst. left. exists t.
      repeat split; auto; lia.
    + intros H. destruct (IH H) as [(u & Hu & Hrest)|(HF & Ha & Hb)].
      * left. exists u. split; [right; exact Hu|exact Hrest].
      * right. split; [constructor; [split; [exact Hne|lia]|exact HF]|auto].
Qed.

Lemma In_range (lo hi d : Z) : In d (range lo hi) -> lo <= d < hi.
Proof.
  unfold range. rewrite in_map_iff. intros (k & <- & Hk).
  apply in_seq in Hk. lia.
Qed.

Lemma update_length {A} (l : list A) (k : nat) (v : A) :
  length (update l k v) = length l.
Proof.
  revert k. induction l as [|h t IH]; intros [|k]; simpl; auto.
Qed.

Lemma setitem_in_bounds {A} (l : list A) (d : Z) (v : A) :
  0 <= d < Z.of_nat (length l) ->
  exists l', setitem l d v = Return l' /\ length l' = length l.
Proof.
  intros Hd. unfold setitem.
  destruct (Z.ltb_spec d 0); [lia|].
  destruct (Z.ltb_spec d 0); [lia|].
  destruct (Z.leb_spec (Z.of_nat (length l)) d); [lia|]. simpl.
  eexists; split; [reflexivity|apply update_length].
Qed.

(** The inner loop of the table fill does not raise and keeps the size of
    the table, as long as every index it writes is within the table. *)
Lemma fill_inner_ok {A} (ds : list Z) (v : A) (table : list A) :
  Forall (fun d => 0 <= d < Z.of_nat (length table)) ds ->
  exists t',
    for_each ds (fun d t => setitem t d v) table = Return t'
    /\ length t' = length table.
Proof.
  revert table. induction ds as [|d ds IH]; intros table HF; simpl.
  - eexists; split; reflexivity.
  - inversion HF as [|? ? Hd HF']; subst.
    destruct (setitem_in_bounds table d v Hd) as (t1 & -> & Hlen).
    destruct (IH t1) as (t2 & -> & Hlen2).
    + rewrite Hlen. exact HF'.
    + exists t2. split; [reflexivity|congruence].
Qed.

Lemma fill_table_ok (ranges : list DistanceRange) (table : list (option (Z * Z))) :
  Forall (fun r => 0 <= r_min r /\ r_max r < Z.of_nat (length table)) ranges ->
  exists t', fill_table ranges table = Return t' /\ length t' = length table.
Proof.
  unfold fill_table. revert table.
  induction ranges as [|r ranges IH]; intros table HF; simpl.
  - eexists; split; reflexivity.
  - inversion HF as [|? ? [Hmin Hmax] HF']; subst.
    destruct (fill_inner_ok (range (r_min r) (r_max r + 1))
                (Some (r_a r, r_b r)) table) as (t1 & -> & Hlen).
    + apply Forall_forall. intros d Hd. apply In_range in Hd. lia.
    + destruct (IH t1) as (t2 & -> & Hlen2).
      * rewrite Hlen. exact HF'.
      * exists t2. split; [reflexivity|congruence].
Qed.

Lemma fold_left_max_ge (l : list Z) (x : Z) :
  x <= fold_left Z.max l x /\ Forall (fun y => y <= fold_left Z.max l x) l.
Proof.
  revert x. induction l as [|y l IH]; intros x; simpl.
  - split; [lia|constructor].
  - destruct (IH (Z.max x y)) as [H1 H2]. split; [lia|].
    constructor; [lia|exact H2].
Qed.

Lemma fold_left_max_lt (l : list Z) (x d : Z) :
  x < d -> Forall (fun y => y < d) l -> fold_left Z.max l x < d.
Proof.
  revert x. induction l as [|y l IH]; intros x Hx HF; simpl; [exact Hx|].
  inversion HF; subst. apply IH; [lia|assumption].
Qed.

(** The table lookup beyond every [max]: the fill succeeds and the guard
    [distance <= max_distance] sends the distance out of range. *)
Lemma table_lookup_beyond (ranges : list DistanceRange) (d : Z) :
  ranges <> [] ->
  Forall (fun r => 0 <= r_min r /\ r_max r < d) ranges ->
  table_lookup ranges d = OutOfRange.
Proof.
  intros Hne HF. unfold table_lookup.
  destruct ranges as [|r0 ranges]; [congruence|].
  cbn [map max_of bind].
  set (M := fold_left Z.max (map r_max ranges) (r_max r0)).
  assert (HM : M < d).
  { apply fold_left_max_lt.
    - inversion HF as [|? ? [_ H] _]; exact H.
    - inversion HF as [|? ? _ HF']; subst. apply Forall_map.
      eapply Forall_impl; [|exact HF']. intros ? [_ H]; exact H. }
  assert (Hub : Forall (fun y => y <= M) (r_max r0 :: map r_max ranges)).
  { destruct (fold_left_max_ge (map r_max ranges) (r_max r0)) as [H1 H2].
    constructor; assumption. }
  destruct (fill_table_ok (r0 :: ranges) (repeat None (Z.to_nat (M + 1))))
    as (t' & -> & _).
  - rewrite repeat_length.
    change (r_max r0 :: map r_max ranges) with (map r_max (r0 :: ranges)) in Hub.
    rewrite Forall_map in Hub.
    rewrite Forall_forall in *. intros r Hr.
    specialize (HF r Hr). specialize (Hub r Hr). simpl in Hub. lia.
  - cbn [bind]. destruct (Z.leb_spec d M); [lia|reflexivity].
Qed.

(** Binary search: the loop ends within [length a] iterations, with an index
    between [lo] and [hi]. *)
Lemma bisect_loop_total (a : list Z) (x : Z) (fuel lo hi : nat) :
  (lo <= hi <= length a)%nat -> (hi - lo < fuel)%nat ->
  exists i, bisect_loop fuel a x lo hi = Some i /\ (lo <= i <= hi)%nat.
Proof.
  revert lo hi. induction fuel as [|fuel IH]; intros lo hi Hb Hf; [lia|].
  cbn [bisect_loop]. destruct (Nat.ltb_spec lo hi) as [Hlt|Hge].
  - assert (Hmid : (lo <= (lo + hi) / 2 < hi)%nat).
    { pose proof (Nat.div_mod_eq (lo + hi) 2) as E.
      pose proof (Nat.mod_upper_bound (lo + hi) 2). lia. }
    destruct (nth_error a ((lo + hi) / 2)) as [v|] eqn:Hn.
    + destruct (x <? v).
      * destruct (IH lo ((lo + hi) / 2)%nat) as (i & Hi & Hr); [lia|lia|].
        exists i. split; [exact Hi|lia].
      * destruct (IH (S ((lo + hi) / 2)) hi) as (i & Hi & Hr); [lia|lia|].
        exists i. split; [exact Hi|lia].
    + apply nth_error_None in Hn. lia.
  - exists lo. split; [reflexivity|lia].
Qed.

Lemma bisect_right_total (a : list Z) (x : Z) :
  exists i, bisect_right a x = Some i /\ (i <= length a)%nat.
Proof.
  destruct (bisect_loop_total a x (S (length a)) 0 (length a)) as (i & Hi & Hr);
    [lia|lia|].
  exists i. split; [exact Hi|lia].
Qed.

(** Binary search for a value no element exceeds runs to the right end. *)
Lemma bisect_loop_beyond (a : list Z) (x : Z) (fuel lo hi : nat) :
  Forall (fun v => v <= x) a ->
  (lo <= hi <= length a)%nat -> (hi - lo < fuel)%nat ->
  bisect_loop fuel a x lo hi = Some hi.
Proof.
  intros Ha. revert lo. induction fuel as [|fuel IH]; intros lo Hb Hf; [lia|].
  cbn [bisect_loop]. destruct (Nat.ltb_spec lo hi) as [Hlt|Hge].
  - assert (Hmid : (lo <= (lo + hi) / 2 < hi)%nat).
    { pose proof (Nat.div_mod_eq (lo + hi) 2) as E.
      pose proof (Nat.mod_upper_bound (lo + hi) 2). lia. }
    destruct (nth_error a ((lo + hi) / 2)) as [v|] eqn:Hn.
    + rewrite Forall_forall in Ha. pose proof (Ha v (nth_error_In _ _ Hn)).
      destruct (Z.ltb_spec x v); [lia|]. apply IH; lia.
    + apply nth_error_None in Hn. lia.
  - f_equal. lia.
Qed.

Lemma binary_search_beyond (ranges : list DistanceRange) (d : Z) :
  Forall (fun r => r_max r <= d) ranges ->
  binary_search ranges d = OutOfRange.
Proof.
  intros HF. unfold binary_search, bisect_right.
  rewrite bisect_loop_beyond; [|apply Forall_map; exact HF|lia|lia].
  rewrite Nat.eqb_refl. reflexivity.
Qed.

(* ===================================================================== *)
(** ** Properties of [process_total_cost] *)
(* ===================================================================== *)

(** C5: whenever [process_total_cost] produces a response, its
    [small_order_surcharge] field is [max(0, minimum_no_surcharge -
    cart_value)]; it is exactly [0] when the cart value reaches the minimum.
    This holds for every integer cart value and minimum, the non-negative
    ones in particular. *)
Theorem C5_small_order_surcharge cart dist minv base ranges method r st msg :
  process_total_cost cart dist minv base ranges method = (Some r, st, msg) ->
  small_order_surcharge r = Z.max 0 (minv - cart)
  /\ (minv <= cart -> small_order_surcharge r = 0).
Proof.
  intros H.
  destruct (process_total_cost_success _ _ _ _ _ _ _ _ _ H) as (a & b & _ & -> & _).
  cbn [price_breakdown small_order_surcharge]. split; [reflexivity|lia].
Qed.

Lemma C5_witness :
  exists r,
    process_total_cost 800 1200 1000 500 test_schedule O_n
    = (Some r, SUCCESS, "Successfully calculated total cost."%string)
    /\ small_order_surcharge r = 200.
Proof.
  eexists. split; [vm_compute; reflexivity|].
  apply (C5_small_order_surcharge 800 1200 1000 500 test_schedule O_n _
           SUCCESS "Successfully calculated total cost."%string).
  vm_compute. reflexivity.
Defined.

(** C9: a schedule with fewer than two entries (the empty one included)
    never yields a response: building the out-of-range message indexes the
    second-to-last sorted entry before any lookup, the [IndexError] reaches
    the last [except] clause, and the result is the empty dictionary with
    [FAILURE], for every cart value, distance and method. *)
Theorem C9_short_schedule cart dist minv base ranges method :
  (length ranges < 2)%nat ->
  process_total_cost cart dist minv base ranges method
  = (None, FAILURE,
     "An unexpected error occurred: list index out of range"%string).
Proof.
  intros H. unfold process_total_cost.
  rewrite getitem_short; [reflexivity|].
  unfold sort_ranges. rewrite sorted_length. exact H.
Qed.

Lemma C9_witness :
  process_total_cost 1500 1200 1000 500 [mkRange 0 500 0 0] O_Log_n
  = (None, FAILURE,
     "An unexpected error occurred: list index out of range"%string).
Proof.
  apply (C9_short_schedule 1500 1200 1000 500 [mkRange 0 500 0 0] O_Log_n).
  simpl. lia.
Defined.



Lemma process_total_cost_out_of_range cart dist minv base ranges method t :
  getitem (sort_ranges ranges) (-2) = Return t ->
  lookup method (sort_ranges ranges) dist = OutOfRange ->
  process_total_cost cart dist minv base ranges method
  = (None, FAILURE, delivery_error_message (r_max t)).
Proof.
  intros Hg Hl. unfold process_total_cost. rewrite Hg, Hl. reflexivity.
Qed.

(** In a schedule whose entries have positive [max] except for one sentinel
    with [max == 0], sorting by [(max == 0, max)] puts the sentinel last
    wherever it was inserted; and for a distance above every finite [max]
    each of the three lookups makes [process_total_cost] return the empty
    dictionary with [FAILURE] and the message that ends in
    [You should be within M meters], [M] being the largest finite [max]. *)
Theorem out_of_range_beyond_every_max
    (l1 l2 : list DistanceRange) (s : DistanceRange) :
  r_max s = 0 ->
  Forall (fun r => 0 < r_max r) (l1 ++ l2) ->
  sort_ranges (l1 ++ s :: l2) = sort_ranges (l1 ++ l2) ++ [s]
  /\ (l1 ++ l2 <> [] ->
      Forall (fun r => 0 <= r_min r) (l1 ++ s :: l2) ->
      exists M,
        (exists t, In t (l1 ++ l2) /\ r_max t = M)
        /\ Forall (fun r => r_max r <= M) (l1 ++ s :: l2)
        /\ forall cart dist minv base,
             Forall (fun r => r_max r < dist) (l1 ++ l2) ->
             forall method, In method [O_n; O_1; O_Log_n] ->
               process_total_cost cart dist minv base (l1 ++ s :: l2) method
               = (None, FAILURE,
                  ("Delivery is not possible. Distance is out of delivery range. You should be within "
                   ++ str_int M ++ " meters")%string)).
Proof.
  intros Hs Hpos.
  assert (Hfin : Forall finite_max (l1 ++ l2)).
  { eapply Forall_impl; [|exact Hpos]. unfold finite_max. intros; lia. }
  pose proof (sort_sentinel_last l1 l2 s Hfin Hs) as Hsort.
  split; [exact Hsort|].
  intros Hne Hmin.
  set (F := sort_ranges (l1 ++ l2)) in *.
  assert (HFne : F <> []).
  { intros E. apply (f_equal (@length _)) in E. unfold F, sort_ranges in E.
    rewrite sorted_length in E. destruct (l1 ++ l2); [congruence|discriminate]. }
  destruct (exists_last HFne) as (F' & t & HF').
  assert (HtF : In t F) by (rewrite HF'; apply in_or_app; right; left; reflexivity).
  assert (Ht : In t (l1 ++ l2)) by (apply (sorted_In sort_key tuple_lt), HtF).
  assert (Hup : Forall (fun r => r_max r <= r_max t) F).
  { rewrite HF'. apply StronglySorted_last_max. rewrite <- HF'.
    apply sort_ranges_ascending, Hfin. }
  assert (Htpos : 0 < r_max t) by (rewrite Forall_forall in Hpos; apply Hpos, Ht).
  exists (r_max t). split; [exists t; auto|]. split.
  - rewrite Forall_forall in *. intros r Hr.
    apply in_app_or in Hr. destruct Hr as [Hr|[<-|Hr]].
    + apply Hup, (sorted_In sort_key tuple_lt), in_or_app; auto.
    + lia.
    + apply Hup, (sorted_In sort_key tuple_lt), in_or_app; auto.
  - intros cart dist minv base Hd method Hm.
    assert (HdF : Forall (fun r => r_max r < dist) F)
      by (apply sorted_Forall, Hd).
    assert (HposF : Forall (fun r => 0 < r_max r) F)
      by (apply sorted_Forall, Hpos).
    assert (Hdpos : 0 < dist).
    { rewrite Forall_forall in HdF. specialize (HdF t HtF). lia. }
    change (process_total_cost cart dist minv base (l1 ++ s :: l2) method
            = (None, FAILURE, delivery_error_message (r_max t))).
    apply process_total_cost_out_of_range.
    + rewrite Hsort. fold F. rewrite HF', <- app_assoc. apply getitem_second_last.
    + rewrite Hsort. fold F.
      destruct Hm as [<-|[<-|[<-|[]]]]; cbn [lookup].
      * rewrite linear_scan_skip; [apply linear_scan_sentinel, Hs|].
        rewrite Forall_forall in *. intros r Hr.
        specialize (HdF r Hr). specialize (HposF r Hr). lia.
      * apply table_lookup_beyond; [destruct F; discriminate|].
        apply Forall_app. split.
        -- rewrite Forall_forall in *. intros r Hr. split; [|auto].
           assert (Hr' : In r (l1 ++ l2))
             by (apply (sorted_In sort_key tuple_lt), Hr).
           apply Hmin. apply in_app_or in Hr'. apply in_or_app. simpl. tauto.
        -- constructor; [|constructor]. split; [|lia].
           rewrite Forall_forall in Hmin. apply Hmin, in_or_app.
           right; left; reflexivity.
      * apply binary_search_beyond. apply Forall_app. split.
        -- eapply Forall_impl; [|exact HdF]. simpl. intros; lia.
        -- constructor; [lia|constructor].
Qed.

Lemma out_of_range_beyond_every_max_witness :
  let l1 := [mkRange 1000 1500 200 0; mkRange 0 500 0 0] in
  let s := mkRange 2000 0 0 0 in
  let l2 := [mkRange 1500 2000 200 1; mkRange 500 1000 100 0] in
  sort_ranges (l1 ++ s :: l2) = test_schedule
  /\ process_total_cost 1500 3000 1000 500 (l1 ++ s :: l2) O_Log_n
     = (None, FAILURE,
        "Delivery is not possible. Distance is out of delivery range. You should be within 2000 meters"%string).
Proof.
  intros l1 s l2.
  destruct (out_of_range_beyond_every_max l1 l2 s) as (Hsort & Hout).
  - reflexivity.
  - repeat constructor.
  - split; [rewrite Hsort; reflexivity|].
    destruct Hout as (M & (t & Ht & HM) & Hup & Hfail).
    + discriminate.
    + repeat constructor; simpl; lia.
    + assert (M = 2000) as ->.
      { rewrite Forall_forall in Hup.
        assert (2000 <= M)
          by (apply (Hup (mkRange 1500 2000 200 1)); simpl; tauto).
        simpl in Ht. destruct Ht as [<-|[<-|[<-|[<-|[]]]]]; simpl in HM; lia. }
      apply Hfail; [repeat constructor|simpl; tauto].
Defined.

(** C3: the sentinel sorts last and a distance above every finite [max] is
    out of range, but the sentinel does match distances.  On the schedule of
    two tiers [{0, 500, a = 100, b = 0}] and
    [{500, 1000, a = 200, b = 0}] with the sentinel
    [{1000, 0, a = 700, b = 3}] inserted between them, the sort puts the
    sentinel last, and the distance 3000, above every finite [max], gives
    under each of the three lookups the empty dictionary with [FAILURE] and
    the message naming 1000.  But the sentinel does match distances: under
    the binary search the distance 200, below the smallest [max], takes the
    [(a, b) = (700, 3)] of the sentinel and is priced with them (fee 1260),
    where the linear scan and the table take the first tier (fee 600). *)
Theorem C3_sentinel_matched_by_binary_search :
  let tier1 := mkRange 0 500 100 0 in
  let tier2 := mkRange 500 1000 200 0 in
  let sentinel := mkRange 1000 0 700 3 in
  let schedule := [tier1; sentinel; tier2] in
  let priced total_price fee :=
    (Some {| total_price := total_price; small_order_surcharge := 0;
             cart_value := 1500;
             delivery := {| fee := fee; distance := 200 |} |},
     SUCCESS, "Successfully calculated total cost."%string) in
  sort_ranges schedule = [tier1; tier2; sentinel]
  /\ (forall method, In method [O_n; O_1; O_Log_n] ->
        process_total_cost_float 1500 3000 1000 500 schedule method
        = (None, FAILURE,
           "Delivery is not possible. Distance is out of delivery range. You should be within 1000 meters"%string))
  /\ lookup O_n (sort_ranges schedule) 200 = Found (r_a tier1) (r_b tier1)
  /\ lookup O_1 (sort_ranges schedule) 200 = Found (r_a tier1) (r_b tier1)
  /\ lookup O_Log_n (sort_ranges schedule) 200
     = Found (r_a sentinel) (r_b sentinel)
  /\ process_total_cost_float 1500 200 1000 500 schedule O_n = priced 2100 600
  /\ process_total_cost_float 1500 200 1000 500 schedule O_1 = priced 2100 600
  /\ process_total_cost_float 1500 200 1000 500 schedule O_Log_n
     = priced 2760 1260.
Proof.
  cbv zeta. split; [vm_compute; reflexivity|]. split.
  - intros method [<-|[<-|[<-|[]]]]; vm_compute; reflexivity.
  - repeat split; vm_compute; reflexivity.
Qed.

Lemma StronglySorted_before (pre post : list DistanceRange) (t : DistanceRange) :
  StronglySorted max_lt (pre ++ t :: post) ->
  Forall (fun p => r_max p < r_max t) pre.
Proof.
  induction pre as [|p pre IH]; simpl; intros HS; [constructor|].
  inversion HS as [|? ? HS' Hp]; subst. constructor.
  - rewrite Forall_forall in Hp. apply (Hp t), in_or_app. right. left. reflexivity.
  - apply IH, HS'.
Qed.

(** A schedule that is already in order, finite tiers ascending and the
    sentinel at the end, is not changed by the sort. *)
Lemma sort_ranges_in_order (fin : list DistanceRange) (s : DistanceRange) :
  r_max s = 0 ->
  Forall (fun r => 0 < r_max r) fin ->
  StronglySorted max_lt fin ->
  sort_ranges (fin ++ [s]) = fin ++ [s].
Proof.
  intros Hs Hpos HS.
  assert (Hfin : Forall finite_max fin).
  { eapply Forall_impl; [|exact Hpos]. unfold finite_max. intros; lia. }
  rewrite (sort_sentinel_last fin [] s); rewrite ?app_nil_r; auto.
  rewrite sort_ranges_id; auto.
Qed.

(** On a schedule in sorted order (positive, strictly increasing [max]
    values, then the sentinel) the linear scan resolves a distance equal to a
    tier's [max] to that tier; a distance equal to a tier's [min] to that
    tier when the [min] lies above the [max] of every earlier tier (and not
    above the tier's own [max]); and a boundary that is one tier's [max] and
    the next tier's [min] to the earlier of the two. *)
Theorem linear_scan_boundaries
    (pre post : list DistanceRange) (t s : DistanceRange) :
  r_max s = 0 ->
  Forall (fun r => 0 < r_max r) (pre ++ t :: post) ->
  StronglySorted max_lt (pre ++ t :: post) ->
  let schedule := (pre ++ t :: post) ++ [s] in
  let resolves_to_t d :=
    lookup O_n (sort_ranges schedule) d = Found (r_a t) (r_b t) in
  resolves_to_t (r_max t)
  /\ (r_min t <= r_max t ->
      Forall (fun p => r_max p < r_min t) pre ->
      resolves_to_t (r_min t))
  /\ (forall next post',
        post = next :: post' -> r_min next = r_max t ->
        resolves_to_t (r_min next)).
Proof.
  intros Hs Hpos HS schedule resolves_to_t.
  assert (Hsorted : sort_ranges schedule = schedule)
    by (apply sort_ranges_in_order; assumption).
  assert (Htpos : 0 < r_max t).
  { rewrite Forall_forall in Hpos. apply Hpos, in_or_app. right. left. reflexivity. }
  assert (Hprepos : Forall (fun r => 0 < r_max r) pre).
  { apply Forall_app in Hpos. tauto. }
  assert (Hscan : forall d,
             d <= r_max t -> Forall (fun p => r_max p < d) pre ->
             resolves_to_t d).
  { intros d Hd Hpre. unfold resolves_to_t.
    rewrite Hsorted. unfold schedule. cbn [lookup].
    rewrite <- app_assoc, linear_scan_skip.
    - apply linear_scan_hit; lia.
    - rewrite Forall_forall in *. intros p Hp.
      specialize (Hpre p Hp). specialize (Hprepos p Hp). lia. }
  pose proof (StronglySorted_before pre post t HS) as Hbefore.
  split; [apply Hscan; [lia|exact Hbefore]|]. split.
  - intros Hmin Hpre. apply Hscan; assumption.
  - intros next post' _ Hshared. rewrite Hshared.
    apply Hscan; [lia|exact Hbefore].
Qed.

Lemma linear_scan_boundaries_witness :
  let pre := [mkRange 0 400 0 0] in
  let t := mkRange 500 1000 100 0 in
  let post := [mkRange 1000 1500 200 0] in
  let schedule := (pre ++ t :: post) ++ [mkRange 1500 0 0 0] in
  lookup O_n (sort_ranges schedule) 1000 = Found 100 0
  /\ lookup O_n (sort_ranges schedule) 500 = Found 100 0.
Proof.
  intros pre t post schedule.
  destruct (linear_scan_boundaries pre post t (mkRange 1500 0 0 0))
    as (Hmax & Hmin & Hshared).
  - reflexivity.
  - repeat constructor.
  - repeat constructor.
  - split.
    + apply (Hshared (mkRange 1000 1500 200 0) []); reflexivity.
    + apply Hmin; [simpl; lia|repeat constructor].
Defined.

(** C2: the linear scan resolves a boundary distance to the tier it closes,
    the two other lookups do not always.  On the schedule of the test suite, which is in
    sorted order, the distance 500 is the [max] of the first tier and the
    [min] of the second: the linear scan and the binary search resolve it to
    the first tier, the lookup table to the second (delivery fee 600 instead
    of 500).  The distance 2000 is the [max] of the fourth tier: the linear
    scan and the table resolve it to that tier, the binary search reports it
    out of range. *)
Theorem C2_boundaries_by_lookup :
  let tier1 := mkRange 0 500 0 0 in
  let tier2 := mkRange 500 1000 100 0 in
  let tier4 := mkRange 1500 2000 200 1 in
  let priced dist total_price fee :=
    (Some {| total_price := total_price; small_order_surcharge := 0;
             cart_value := 1500;
             delivery := {| fee := fee; distance := dist |} |},
     SUCCESS, "Successfully calculated total cost."%string) in
  sort_ranges test_schedule = test_schedule
  /\ In tier1 test_schedule /\ In tier2 test_schedule /\ In tier4 test_schedule
  /\ lookup O_n (sort_ranges test_schedule) 500 = Found (r_a tier1) (r_b tier1)
  /\ lookup O_Log_n (sort_ranges test_schedule) 500
     = Found (r_a tier1) (r_b tier1)
  /\ lookup O_1 (sort_ranges test_schedule) 500 = Found (r_a tier2) (r_b tier2)
  /\ process_total_cost_float 1500 500 1000 500 test_schedule O_n
     = priced 500 2000 500
  /\ process_total_cost_float 1500 500 1000 500 test_schedule O_1
     = priced 500 2100 600
  /\ lookup O_n (sort_ranges test_schedule) 2000 = Found (r_a tier4) (r_b tier4)
  /\ lookup O_1 (sort_ranges test_schedule) 2000 = Found (r_a tier4) (r_b tier4)
  /\ lookup O_Log_n (sort_ranges test_schedule) 2000 = OutOfRange
  /\ process_total_cost_float 1500 2000 1000 500 test_schedule O_n
     = priced 2000 2400 900
  /\ process_total_cost_float 1500 2000 1000 500 test_schedule O_Log_n
     = (None, FAILURE,
        "Delivery is not possible. Distance is out of delivery range. You should be within 2000 meters"%string).
Proof.
  cbv zeta. repeat split; try (vm_compute; reflexivity); simpl; tauto.
Qed.

(** C1: the three lookups do not agree.  On the schedule of the test suite
    the linear scan and the table resolve the distance [1200] to
    [(200, 0)], the binary search to [(100, 0)], the values of the tier
    below; at [500] the linear scan gives [(0, 0)] and the table
    [(100, 0)]; at [1500] the linear scan succeeds and the binary search
    reports the distance out of range. *)
Theorem C1_lookups_disagree :
  process_total_cost 1500 1200 1000 500 test_schedule O_n
  = (Some (price_breakdown 1500 1200 1000 500 200 0), SUCCESS,
     "Successfully calculated total cost."%string)
  /\ process_total_cost 1500 1200 1000 500 test_schedule O_1
     = (Some (price_breakdown 1500 1200 1000 500 200 0), SUCCESS,
        "Successfully calculated total cost."%string)
  /\ process_total_cost 1500 1200 1000 500 test_schedule O_Log_n
     = (Some (price_breakdown 1500 1200 1000 500 100 0), SUCCESS,
        "Successfully calculated total cost."%string)
  /\ lookup O_n (sort_ranges test_schedule) 500 = Found 0 0
  /\ lookup O_1 (sort_ranges test_schedule) 500 = Found 100 0
  /\ process_total_cost 1500 1500 1000 500 test_schedule O_n
     = (Some (price_breakdown 1500 1500 1000 500 200 0), SUCCESS,
        "Successfully calculated total cost."%string)
  /\ process_total_cost 1500 1500 1000 500 test_schedule O_Log_n
     = (None, FAILURE, delivery_error_message 2000).
Proof.
  repeat split; vm_compute; reflexivity.
Qed.

(** C4: the scenario of the specification, cart value [1500] and distance
    [1200] on the schedule of the test suite.  The linear scan and the table
    resolve to the tier [{1000, 1500, 200, 0}]: the fee is [200 + base], the
    total [cart_value + surcharge + fee].  The binary search resolves to the
    tier [{500, 1000, 100, 0}] and charges [100 + base]. *)
Theorem C4_scenario_1200 (minv base : Z) :
  let answer a :=
    (Some {| total_price := 1500 + Z.max 0 (minv - 1500) + (a + base);
             small_order_surcharge := Z.max 0 (minv - 1500);
             cart_value := 1500;
             delivery := {| fee := a + base; distance := 1200 |} |},
     SUCCESS, "Successfully calculated total cost."%string) in
  process_total_cost 1500 1200 minv base test_schedule O_n = answer 200
  /\ process_total_cost 1500 1200 minv base test_schedule O_1 = answer 200
  /\ process_total_cost 1500 1200 minv base test_schedule O_Log_n = answer 100.
Proof.
  intros answer. unfold answer.
  repeat split; rewrite <- price_breakdown_flat;
    apply process_total_cost_found;
    solve [simpl; lia | vm_compute; reflexivity].
Qed.

(* ===================================================================== *)
(** ** Properties of [calculate_distance] *)
(* ===================================================================== *)

Section Distance.
Local Open Scope R_scope.

Lemma sin_half_sq_sym (x y : R) :
  sin ((x - y) / 2) ^ 2 = sin ((y - x) / 2) ^ 2.
Proof.
  replace ((x - y) / 2) with (- ((y - x) / 2)) by lra.
  rewrite sin_neg. ring.
Qed.

Lemma haversine_m_sym (lat_a lon_a lat_b lon_b : R) :
  Geo.haversine_m lat_a lon_a lat_b lon_b
  = Geo.haversine_m lat_b lon_b lat_a lon_a.
Proof.
  unfold Geo.haversine_m. cbv zeta.
  rewrite (sin_half_sq_sym (Geo.radians lat_b) (Geo.radians lat_a)).
  rewrite (sin_half_sq_sym (Geo.radians lon_b) (Geo.radians lon_a)).
  rewrite (Rmult_comm (cos (Geo.radians lat_a)) (cos (Geo.radians lat_b))).
  reflexivity.
Qed.

Lemma math_sqrt_0 : Geo.math_sqrt 0 = Return 0.
Proof.
  unfold Geo.math_sqrt. destruct (Rlt_dec 0 0); [lra|]. now rewrite sqrt_0.
Qed.

Lemma math_sqrt_1 : Geo.math_sqrt 1 = Return 1.
Proof.
  unfold Geo.math_sqrt. destruct (Rlt_dec 1 0); [lra|]. now rewrite sqrt_1.
Qed.

Lemma atan2_0_1 : Geo.atan2 0 1 = 0.
Proof.
  unfold Geo.atan2. destruct (Rlt_dec 0 1); [|lra].
  replace (0 / 1) with 0 by lra. apply atan_0.
Qed.

Lemma round_0 : Geo.round 0 = 0%Z.
Proof.
  assert (E : Int_part 0 = 0%Z).
  { unfold Int_part. rewrite <- (tech_up 0 1); [reflexivity|simpl; lra..]. }
  unfold Geo.round. rewrite E. cbv zeta.
  destruct (Rlt_dec (0 - 0) (1 / 2)); [reflexivity|lra].
Qed.

Lemma haversine_m_same (lat lon : R) :
  Geo.haversine_m lat lon lat lon = Return 0.
Proof.
  unfold Geo.haversine_m. cbv zeta.
  replace ((Geo.radians lat - Geo.radians lat) / 2) with 0 by lra.
  replace ((Geo.radians lon - Geo.radians lon) / 2) with 0 by lra.
  rewrite sin_0.
  replace (0 ^ 2 + cos (Geo.radians lat) * cos (Geo.radians lat) * 0 ^ 2)
    with 0 by ring.
  rewrite math_sqrt_0. cbn [bind].
  replace (1 - 0) with 1 by ring.
  rewrite math_sqrt_1. cbn [bind].
  rewrite atan2_0_1. f_equal. ring.
Qed.

Lemma simple_m_same (lat lon : R) :
  Geo.simple_m lat lon lat lon = Return 0.
Proof.
  unfold Geo.simple_m. cbv zeta.
  replace (((lon - lon) * 111.32 * cos (Geo.radians lat)) ^ 2
           + ((lat - lat) * 111.32) ^ 2) with 0 by ring.
  rewrite math_sqrt_0. cbn [bind]. f_equal. ring.
Qed.

(** C7: under the haversine method the result for [(A, B)] is the result
    for [(B, A)], and for identical coordinates both the planar and the
    haversine method return the distance [0] (with [SUCCESS]). *)
Theorem C7_haversine_symmetric_identical_zero (lat_a lon_a lat_b lon_b : R) :
  Geo.calculate_distance lat_a lon_a lat_b lon_b HAVERSINE
  = Geo.calculate_distance lat_b lon_b lat_a lon_a HAVERSINE
  /\ Geo.calculate_distance lat_a lon_a lat_a lon_a HAVERSINE
     = (0%Z, SUCCESS, "Distance calculated using Haversine formula."%string)
  /\ Geo.calculate_distance lat_a lon_a lat_a lon_a SIMPLE
     = (0%Z, SUCCESS,
        "Distance calculated using the simple Pythagorean theorem."%string).
Proof.
  unfold Geo.calculate_distance. cbn [Z.eqb HAVERSINE SIMPLE Pos.eqb].
  rewrite (haversine_m_sym lat_a lon_a lat_b lon_b).
  rewrite haversine_m_same, simple_m_same, round_0.
  repeat split.
Qed.

(** C8: a method that is neither [SIMPLE] nor [HAVERSINE] is not
    computed with either formula: the result is the distance [0] with
    [FAILURE] and the message naming the method. *)
Theorem C8_invalid_method
    (user_lat user_lon venue_lat venue_lon : R) (method : Z) :
  method <> SIMPLE -> method <> HAVERSINE ->
  Geo.calculate_distance user_lat user_lon venue_lat venue_lon method
  = (0%Z, FAILURE, Geo.invalid_method_message method).
Proof.
  intros Hs Hh. unfold Geo.calculate_distance.
  apply Z.eqb_neq in Hs, Hh. rewrite Hs, Hh. reflexivity.
Qed.

Lemma C8_witness :
  Geo.calculate_distance 52.52 13.405 52.5 13.4 999
  = (0%Z, FAILURE,
     "Invalid calculation method: 999. Use 0 (SIMPLE) or 1 (HAVERSINE)."%string).
Proof.
  apply (C8_invalid_method 52.52 13.405 52.5 13.4 999); discriminate.
Defined.

End Distance.

(* ===================================================================== *)
(** ** Further properties of [process_total_cost] *)
(* ===================================================================== *)

(** Every result is either the empty dictionary with [FAILURE] or a response
    with [SUCCESS] and the success message: no error path leaves a partly
    filled response behind, and no response comes with [FAILURE]. *)
Theorem process_total_cost_outcome cart dist minv base ranges method :
  (exists msg,
      process_total_cost cart dist minv base ranges method
      = (None, FAILURE, msg))
  \/ (exists r,
         process_total_cost cart dist minv base ranges method
         = (Some r, SUCCESS, "Successfully calculated total cost."%string)).
Proof.
  unfold process_total_cost, handle_exception.
  destruct (getitem (sort_ranges ranges) (-2)) as [x|e].
  - destruct (lookup method (sort_ranges ranges) dist) as [a b| |e].
    + right. eexists. reflexivity.
    + left. eexists. reflexivity.
    + left. destruct e; eexists; reflexivity.
  - left. destruct e; eexists; reflexivity.
Qed.



Lemma update_In {A} (l : list A) (k : nat) (v x : A) :
  In x (update l k v) -> x = v \/ In x l.
Proof.
  revert k. induction l as [|h t IH]; intros [|k]; simpl; try tauto.
  - intros [H|H]; auto.
  - intros [H|H]; auto. destruct (IH k H); auto.
Qed.

Lemma setitem_In {A} (l l' : list A) (d : Z) (v x : A) :
  setitem l d v = Return l' -> In x l' -> x = v \/ In x l.
Proof.
  unfold setitem.
  destruct ((_ <? 0) || (_ <=? _)); [discriminate|].
  intros H; inversion H; subst. apply update_In.
Qed.

Lemma getitem_In {A} (l : list A) (i : Z) (x : A) :
  getitem l i = Return x -> In x l.
Proof.
  unfold getitem. destruct (_ <? 0); [discriminate|].
  destruct (nth_error l _) as [y|] eqn:E; [|discriminate].
  intros H; inversion H; subst. eapply nth_error_In, E.
Qed.

Lemma fill_inner_In {A} (ds : list Z) (v x : A) (table t' : list A) :
  for_each ds (fun d t => setitem t d v) table = Return t' ->
  In x t' -> x = v \/ In x table.
Proof.
  revert table. induction ds as [|d ds IH]; intros table; simpl.
  - intros H; inversion H; subst. auto.
  - destruct (setitem table d v) as [t1|e] eqn:E; [|discriminate].
    intros H Hx. destruct (IH _ H Hx) as [|Hx1]; auto.
    eapply setitem_In; eauto.
Qed.

Lemma fill_table_In (ranges : list DistanceRange) table t' (p : Z * Z) :
  fill_table ranges table = Return t' ->
  In (Some p) t' ->
  In (Some p) table \/ exists r, In r ranges /\ p = (r_a r, r_b r).
Proof.
  unfold fill_table. revert table.
  induction ranges as [|r ranges IH]; intros table; simpl.
  - intros H; inversion H; subst. auto.
  - destruct (for_each (range (r_min r) (r_max r + 1)) _ table) as [t1|e] eqn:E;
      [|discriminate].
    intros H Hp. destruct (IH _ H Hp) as [Hp1|(r' & Hr' & Hp')].
    + destruct (fill_inner_In _ _ _ _ _ E Hp1) as [Heq|Hin]; auto.
      right. exists r. split; [left; reflexivity|congruence].
    + right. exists r'. split; [right; exact Hr'|exact Hp'].
Qed.

Lemma table_lookup_found (ranges : list DistanceRange) (d a b : Z) :
  table_lookup ranges d = Found a b ->
  exists r, In r ranges /\ a = r_a r /\ b = r_b r.
Proof.
  unfold table_lookup.
  destruct (max_of (map r_max ranges)) as [M|e]; cbn [bind]; [|discriminate].
  destruct (fill_table ranges (repeat None (Z.to_nat (M + 1)))) as [t'|e] eqn:E;
    cbn [bind]; [|discriminate].
  destruct (d <=? M); [|discriminate].
  destruct (getitem t' d) as [[[a' b']|]|e] eqn:G; try discriminate.
  intros H; inversion H; subst.
  apply getitem_In in G.
  destruct (fill_table_In _ _ _ _ E G) as [Hrep|(r & Hr & Hp)].
  - apply repeat_spec in Hrep. discriminate.
  - exists r. inversion Hp; auto.
Qed.

Lemma binary_search_found (ranges : list DistanceRange) (d a b : Z) :
  binary_search ranges d = Found a b ->
  exists r, In r ranges /\ a = r_a r /\ b = r_b r.
Proof.
  unfold binary_search.
  destruct (bisect_right (map r_max ranges) d) as [i|]; [|discriminate].
  destruct (i =? length (map r_max ranges))%nat; [discriminate|].
  destruct (getitem ranges (Z.of_nat i - 1)) as [r|e] eqn:G; [|discriminate].
  intros H; inversion H; subst. exists r.
  split; [eapply getitem_In, G|auto].
Qed.

Lemma lookup_found_in_list method (l : list DistanceRange) dist a b :
  lookup method l dist = Found a b ->
  (a = 0 /\ b = 0) \/ (exists r, In r l /\ a = r_a r /\ b = r_b r).
Proof.
  destruct method as [| | |name]; cbn [lookup]; intros H.
  - destruct (linear_scan_found _ _ _ _ H)
      as [(t & Ht & _ & _ & Ha & Hb)|(_ & Ha & Hb)]; [right|left; auto].
    exists t. auto.
  - right. apply (table_lookup_found _ _ _ _ H).
  - right. apply (binary_search_found _ _ _ _ H).
  - inversion H. left. auto.
Qed.

(** Whatever the method, the values [a] and [b] that enter the price are
    those of one entry of the schedule handed in, or the initial [0] and [0]:
    the lookups never combine the [a] of one entry with the [b] of another
    and never produce values the schedule does not hold. *)
Theorem lookup_values_from_schedule method ranges dist a b :
  lookup method (sort_ranges ranges) dist = Found a b ->
  (a = 0 /\ b = 0)
  \/ (exists r, In r ranges /\ a = r_a r /\ b = r_b r).
Proof.
  intros H.
  destruct (lookup_found_in_list _ _ _ _ _ H) as [Hz|(r & Hr & Hab)].
  - left. exact Hz.
  - right. exists r. split; [|exact Hab].
    apply (sorted_In sort_key tuple_lt), Hr.
Qed.

Lemma lookup_values_from_schedule_witness :
  (200 = 0 /\ 1 = 0)
  \/ (exists r, In r test_schedule /\ 200 = r_a r /\ 1 = r_b r).
Proof.
  apply (lookup_values_from_schedule O_1 test_schedule 1999 200 1).
  vm_compute. reflexivity.
Defined.

(* --------------------------------------------------------------------- *)
(** *** The sort in general *)

Lemma is_sentinel_finite (r : DistanceRange) :
  is_sentinel r = false <-> finite_max r.
Proof. unfold is_sentinel, finite_max. apply Z.eqb_neq. Qed.

Lemma tuple_lt_sentinels (x y : DistanceRange) :
  r_max x = 0 -> r_max y = 0 -> tuple_lt (sort_key y) (sort_key x) = false.
Proof.
  unfold sort_key, tuple_lt. intros -> ->. reflexivity.
Qed.

Lemma insert_before_sentinels (x : DistanceRange) (F S : list DistanceRange) :
  finite_max x -> Forall (fun r => r_max r = 0) S ->
  insert sort_key tuple_lt x (F ++ S) = insert sort_key tuple_lt x F ++ S.
Proof.
  intros Hx HS. induction F as [|y F IH]; cbn [insert app].
  - destruct S as [|s S]; [reflexivity|]. cbn [insert].
    inversion HS as [|? ? Hs _]; subst.
    destruct (tuple_lt_finite_sentinel x s Hx Hs) as [_ ->]. reflexivity.
  - destruct (tuple_lt (sort_key y) (sort_key x)); cbn [app]; [rewrite IH|];
      reflexivity.
Qed.

Lemma insert_among_sentinels (s : DistanceRange) (F S : list DistanceRange) :
  r_max s = 0 -> Forall finite_max F -> Forall (fun r => r_max r = 0) S ->
  insert sort_key tuple_lt s (F ++ S) = F ++ s :: S.
Proof.
  intros Hs HF HS. induction HF as [|y F Hy HF IH]; cbn [insert app].
  - destruct S as [|z S]; [reflexivity|]. cbn [insert].
    inversion HS as [|? ? Hz _]; subst.
    rewrite (tuple_lt_sentinels s z Hs Hz). reflexivity.
  - destruct (tuple_lt_finite_sentinel y s Hy Hs) as [-> _]. rewrite IH.
    reflexivity.
Qed.

Lemma filter_finite_Forall (l : list DistanceRange) :
  Forall finite_max (filter (fun r => negb (is_sentinel r)) l).
Proof.
  apply Forall_forall. intros r Hr. apply filter_In in Hr.
  apply is_sentinel_finite. destruct Hr as [_ Hr].
  now apply negb_true_iff in Hr.
Qed.

Lemma filter_sentinel_Forall (l : list DistanceRange) :
  Forall (fun r => r_max r = 0) (filter is_sentinel l).
Proof.
  apply Forall_forall. intros r Hr. apply filter_In in Hr.
  destruct Hr as [_ Hr]. now apply Z.eqb_eq in Hr.
Qed.

Lemma sort_ranges_partition (l : list DistanceRange) :
  sort_ranges l
  = sort_ranges (filter (fun r => negb (is_sentinel r)) l)
    ++ filter is_sentinel l.
Proof.
  unfold sort_ranges. induction l as [|x l IH]; [reflexivity|].
  cbn [sorted filter]. rewrite IH.
  destruct (is_sentinel x) eqn:Ex; cbn [negb sorted].
  - apply insert_among_sentinels.
    + now apply Z.eqb_eq in Ex.
    + apply sorted_Forall, filter_finite_Forall.
    + apply filter_sentinel_Forall.
  - apply insert_before_sentinels.
    + now apply is_sentinel_finite.
    + apply filter_sentinel_Forall.
Qed.

Lemma In_sorted_finite (l : list DistanceRange) (r : DistanceRange) :
  In r (sort_ranges (filter (fun r => negb (is_sentinel r)) l))
  <-> In r l /\ r_max r <> 0.
Proof.
  unfold sort_ranges. rewrite sorted_In, filter_In.
  unfold is_sentinel. rewrite negb_true_iff, Z.eqb_neq. tauto.
Qed.

(** The sort lists the entries with a non-zero [max] by ascending [max]
    and puts every entry with [max == 0] behind them, in the order in which
    these stood in the input (the sort is stable), however many there are. *)
Theorem sort_ranges_structure (l : list DistanceRange) :
  sort_ranges l
  = sort_ranges (filter (fun r => negb (is_sentinel r)) l)
    ++ filter is_sentinel l
  /\ StronglySorted max_le
       (sort_ranges (filter (fun r => negb (is_sentinel r)) l))
  /\ (forall r, In r (sort_ranges (filter (fun r => negb (is_sentinel r)) l))
                <-> In r l /\ r_max r <> 0).
Proof.
  split; [|split].
  - apply sort_ranges_partition.
  - apply sort_ranges_ascending, filter_finite_Forall.
  - intros r. apply In_sorted_finite.
Qed.

(* --------------------------------------------------------------------- *)
(** *** The linear scan in general *)

Lemma linear_scan_ascending (F rest : list DistanceRange) (d : Z) (t : DistanceRange) :
  Forall finite_max F -> StronglySorted max_le F ->
  In t F -> d <= r_max t ->
  exists u, In u F /\ d <= r_max u
            /\ (forall v, In v F -> d <= r_max v -> r_max u <= r_max v)
            /\ linear_scan (F ++ rest) d = Found (r_a u) (r_b u).
Proof.
  intros HF HS. induction HS as [|x F HS IH Hx]; intros Ht Hd; [destruct Ht|].
  inversion HF as [|? ? Hfx HF']; subst.
  destruct (Z.le_gt_cases d (r_max x)) as [Hle|Hgt].
  - exists x. split; [left; reflexivity|]. split; [exact Hle|]. split.
    + intros v [<-|Hv] _; [lia|]. rewrite Forall_forall in Hx. apply Hx, Hv.
    + apply linear_scan_hit; assumption.
  - destruct Ht as [<-|Ht]; [lia|].
    destruct (IH HF' Ht Hd) as (u & Hu & Hdu & Hmin & Hscan).
    exists u. split; [right; exact Hu|]. split; [exact Hdu|]. split.
    + intros v [<-|Hv] Hdv; [lia|]. apply Hmin; assumption.
    + change ((x :: F) ++ rest) with ([x] ++ (F ++ rest)).
      rewrite linear_scan_skip; [exact Hscan|].
      constructor; [split; [exact Hfx|lia]|constructor].
Qed.

(** The linear scan on any schedule, in any order and with any number of
    sentinels: when some entry with a non-zero [max] reaches the distance, the
    scan resolves to an entry of least [max] among those; when none does and
    the schedule holds a sentinel, the distance is out of range. *)
Theorem linear_scan_least_max (ranges : list DistanceRange) (d : Z) :
  (forall t, In t ranges -> r_max t <> 0 -> d <= r_max t ->
     exists u,
       In u ranges /\ r_max u <> 0 /\ d <= r_max u
       /\ (forall v, In v ranges -> r_max v <> 0 -> d <= r_max v ->
                     r_max u <= r_max v)
       /\ lookup O_n (sort_ranges ranges) d = Found (r_a u) (r_b u))
  /\ ((forall t, In t ranges -> r_max t <> 0 -> r_max t < d) ->
      forall s, In s ranges -> r_max s = 0 ->
      lookup O_n (sort_ranges ranges) d = OutOfRange).
Proof.
  pose proof (sort_ranges_partition ranges) as Hsort.
  pose proof (sort_ranges_ascending _ (filter_finite_Forall ranges)) as Hasc.
  pose proof (In_sorted_finite ranges) as Hin.
  set (F := sort_ranges (filter (fun r => negb (is_sentinel r)) ranges)) in *.
  assert (HF : Forall finite_max F)
    by (apply sorted_Forall, filter_finite_Forall).
  split.
  - intros t Ht Hne Hd. cbn [lookup]. rewrite Hsort.
    destruct (linear_scan_ascending F (filter is_sentinel ranges) d t HF Hasc)
      as (u & Hu & Hdu & Hmin & Hscan); [apply Hin; auto|exact Hd|].
    exists u. apply Hin in Hu. destruct Hu as [Hu Hune].
    repeat split; auto.
    intros v Hv Hvne Hdv. apply Hmin; [apply Hin; auto|exact Hdv].
  - intros Hall s Hs Hs0. cbn [lookup]. rewrite Hsort.
    rewrite linear_scan_skip.
    + assert (Hs' : In s (filter is_sentinel ranges)).
      { apply filter_In. split; [exact Hs|]. now apply Z.eqb_eq. }
      destruct (filter is_sentinel ranges) as [|z S] eqn:E; [destruct Hs'|].
      apply linear_scan_sentinel.
      pose proof (filter_sentinel_Forall ranges) as HS. rewrite E in HS.
      now inversion HS.
    + apply Forall_forall. intros p Hp. apply Hin in Hp.
      destruct Hp as [Hp Hpne]. split; [exact Hpne|apply Hall; assumption].
Qed.

Lemma linear_scan_least_max_witness :
  (exists u,
      In u (rev test_schedule) /\ r_max u <> 0 /\ 1200 <= r_max u
      /\ (forall v, In v (rev test_schedule) -> r_max v <> 0 ->
                    1200 <= r_max v -> r_max u <= r_max v)
      /\ lookup O_n (sort_ranges (rev test_schedule)) 1200
         = Found (r_a u) (r_b u))
  /\ lookup O_n (sort_ranges (rev test_schedule)) 2001 = OutOfRange.
Proof.
  split.
  - apply (proj1 (linear_scan_least_max (rev test_schedule) 1200)
             (mkRange 1500 2000 200 1)).
    + simpl. tauto.
    + simpl. lia.
    + simpl. lia.
  - apply (proj2 (linear_scan_least_max (rev test_schedule) 2001)) with
      (s := mkRange 2000 0 0 0).
    + simpl. intros t [<-|[<-|[<-|[<-|[<-|[]]]]]]; simpl; lia.
    + simpl. tauto.
    + reflexivity.
Defined.

(* --------------------------------------------------------------------- *)
(** *** The order of the input *)

Ltac key_cases :=
  unfold key_le, sort_key, tuple_lt in *;
  repeat match goal with
         | |- context [?m =? 0] => destruct (Z.eqb_spec m 0)
         | H : context [?m =? 0] |- _ => destruct (Z.eqb_spec m 0)
         end;
  cbn [Bool.eqb negb] in *;
  repeat match goal with
         | H : (_ <? _) = false |- _ => apply Z.ltb_ge in H
         | H : (_ <? _) = true |- _ => apply Z.ltb_lt in H
         | |- (_ <? _) = false => apply Z.ltb_ge
         end;
  try discriminate; try reflexivity; try lia.

Lemma key_le_trans (x y z : DistanceRange) :
  key_le x y -> key_le y z -> key_le x z.
Proof. intros Hxy Hyz. key_cases. Qed.

Lemma key_le_of_lt (x y : DistanceRange) :
  tuple_lt (sort_key y) (sort_key x) = true -> key_le y x.
Proof. intros H. key_cases. Qed.

Lemma key_le_antisym (x y : DistanceRange) :
  key_le x y -> key_le y x -> r_max x = r_max y.
Proof. intros Hxy Hyx. key_cases. Qed.

Lemma insert_Permutation (x : DistanceRange) (l : list DistanceRange) :
  Permutation (insert sort_key tuple_lt x l) (x :: l).
Proof.
  induction l as [|y l IH]; cbn [insert]; [reflexivity|].
  destruct (tuple_lt (sort_key y) (sort_key x)); [|reflexivity].
  rewrite IH. apply perm_swap.
Qed.

Lemma sort_ranges_Permutation (l : list DistanceRange) :
  Permutation (sort_ranges l) l.
Proof.
  unfold sort_ranges. induction l as [|x l IH]; cbn [sorted]; [reflexivity|].
  rewrite insert_Permutation. now constructor.
Qed.

Lemma insert_key_sorted (x : DistanceRange) (l : list DistanceRange) :
  StronglySorted key_le l ->
  StronglySorted key_le (insert sort_key tuple_lt x l).
Proof.
  induction 1 as [|y l HS IH Hy]; cbn [insert].
  - constructor; constructor.
  - destruct (tuple_lt (sort_key y) (sort_key x)) eqn:E.
    + constructor; [exact IH|].
      apply Forall_forall. intros z Hz. apply insert_In in Hz.
      destruct Hz as [->|Hz]; [apply key_le_of_lt, E|].
      rewrite Forall_forall in Hy. apply Hy, Hz.
    + constructor; [constructor; assumption|].
      constructor; [exact E|].
      eapply Forall_impl; [|exact Hy]. intros z Hz.
      eapply key_le_trans; [exact E|exact Hz].
Qed.

Lemma sort_ranges_key_sorted (l : list DistanceRange) :
  StronglySorted key_le (sort_ranges l).
Proof.
  unfold sort_ranges. induction l as [|x l IH]; cbn [sorted].
  - constructor.
  - apply insert_key_sorted, IH.
Qed.

(** Two lists in key order that hold the same entries, with no [max] value
    shared by two of them, are the same list. *)
Lemma key_sorted_unique (l1 l2 : list DistanceRange) :
  StronglySorted key_le l1 -> StronglySorted key_le l2 ->
  Permutation l1 l2 -> NoDup (map r_max l1) -> l1 = l2.
Proof.
  intros HS1. revert l2. induction HS1 as [|x l1 HS1 IH Hx]; intros l2 HS2 HP HN.
  - apply Permutation_nil in HP. congruence.
  - destruct l2 as [|y l2];
      [apply Permutation_sym, Permutation_nil in HP; discriminate|].
    inversion HS2 as [|? ? HS2' Hy]; subst.
    inversion HN as [|? ? Hnotin HN']; subst.
    assert (Hxy : x = y).
    { assert (Hx2 : In x (y :: l2))
        by (eapply Permutation_in; [exact HP|left; reflexivity]).
      assert (Hy1 : In y (x :: l1))
        by (eapply Permutation_in;
            [apply Permutation_sym; exact HP|left; reflexivity]).
      destruct Hx2 as [->|Hx2]; [reflexivity|].
      destruct Hy1 as [->|Hy1]; [reflexivity|].
      exfalso. apply Hnotin.
      rewrite Forall_forall in Hx, Hy.
      rewrite (key_le_antisym x y (Hx y Hy1) (Hy x Hx2)).
      apply in_map, Hy1. }
    subst y. f_equal.
    apply IH; [exact HS2'|eapply Permutation_cons_inv; exact HP|exact HN'].
Qed.

(** The order in which the schedule lists its entries does not matter, as
    long as no two entries have the same [max]: a reordered schedule gives the
    same result, for every method. *)
Theorem process_total_cost_order_independent
    cart dist minv base (ranges ranges' : list DistanceRange) method :
  Permutation ranges ranges' ->
  NoDup (map r_max ranges) ->
  sort_ranges ranges = sort_ranges ranges'
  /\ process_total_cost cart dist minv base ranges method
     = process_total_cost cart dist minv base ranges' method.
Proof.
  intros HP HN.
  assert (E : sort_ranges ranges = sort_ranges ranges').
  { apply key_sorted_unique; try apply sort_ranges_key_sorted.
    - rewrite !sort_ranges_Permutation. exact HP.
    - eapply Permutation_NoDup; [|exact HN].
      apply Permutation_map, Permutation_sym, sort_ranges_Permutation. }
  split; [exact E|]. unfold process_total_cost. rewrite E. reflexivity.
Qed.

Lemma process_total_cost_order_independent_witness :
  sort_ranges test_schedule = sort_ranges (rev test_schedule)
  /\ process_total_cost 1500 1200 1000 500 test_schedule O_1
     = process_total_cost 1500 1200 1000 500 (rev test_schedule) O_1.
Proof.
  apply (process_total_cost_order_independent 1500 1200 1000 500
           test_schedule (rev test_schedule) O_1).
  - apply Permutation_rev.
  - repeat constructor; simpl; intuition lia.
Defined.

(* --------------------------------------------------------------------- *)
(** *** The lookup table in general *)

Lemma nth_error_update {A} (l : list A) (k j : nat) (v : A) :
  (k < length l)%nat ->
  nth_error (update l k v) j = if (j =? k)%nat then Some v else nth_error l j.
Proof.
  revert k j. induction l as [|h t IH]; intros [|k] [|j] Hk; simpl in *;
    try lia; try reflexivity.
  apply IH. lia.
Qed.

Lemma setitem_nth {A} (l : list A) (d : Z) (v : A) (j : nat) :
  0 <= d < Z.of_nat (length l) ->
  exists l',
    setitem l d v = Return l' /\ length l' = length l
    /\ nth_error l' j = if Z.of_nat j =? d then Some v else nth_error l j.
Proof.
  intros Hd. unfold setitem.
  destruct (Z.ltb_spec d 0); [lia|].
  destruct (Z.ltb_spec d 0); [lia|].
  destruct (Z.leb_spec (Z.of_nat (length l)) d); [lia|]. cbn [orb].
  eexists. split; [reflexivity|]. split; [apply update_length|].
  rewrite nth_error_update by lia.
  destruct (Nat.eqb_spec j (Z.to_nat d)), (Z.eqb_spec (Z.of_nat j) d);
    try reflexivity; lia.
Qed.

Lemma fill_inner_nth {A} (ds : list Z) (v : A) (table : list A) (j : nat) :
  Forall (fun d => 0 <= d < Z.of_nat (length table)) ds ->
  exists t',
    for_each ds (fun d t => setitem t d v) table = Return t'
    /\ length t' = length table
    /\ nth_error t' j
       = if existsb (Z.eqb (Z.of_nat j)) ds then Some v else nth_error table j.
Proof.
  revert table. induction ds as [|d ds IH]; intros table HF; cbn [for_each existsb].
  - eexists. repeat split.
  - inversion HF as [|? ? Hd HF']; subst.
    destruct (setitem_nth table d v j Hd) as (t1 & -> & Hlen & Hn).
    destruct (IH t1) as (t2 & -> & Hlen2 & Hn2); [rewrite Hlen; exact HF'|].
    exists t2. split; [reflexivity|]. split; [congruence|].
    rewrite Hn2, Hn.
    destruct (existsb (Z.eqb (Z.of_nat j)) ds), (Z.of_nat j =? d); reflexivity.
Qed.

Lemma existsb_range (lo hi d : Z) :
  existsb (Z.eqb d) (range lo hi) = (lo <=? d) && (d <? hi).
Proof.
  apply eq_true_iff_eq. rewrite existsb_exists, andb_true_iff.
  rewrite Z.leb_le, Z.ltb_lt. split.
  - intros (x & Hx & E). apply Z.eqb_eq in E. subst x.
    apply In_range in Hx. lia.
  - intros H. exists d. split; [|apply Z.eqb_refl].
    unfold range. apply in_map_iff. exists (Z.to_nat (d - lo)).
    split; [lia|]. apply in_seq. lia.
Qed.

Lemma find_snoc {A} (f : A -> bool) (l : list A) (x : A) :
  find f (l ++ [x])
  = match find f l with
    | Some y => Some y
    | None => if f x then Some x else None
    end.
Proof.
  induction l as [|h t IH]; cbn [app find]; [reflexivity|].
  destruct (f h); [reflexivity|exact IH].
Qed.

Lemma fill_table_nth (ranges : list DistanceRange) table (j : nat) :
  Forall (fun r => 0 <= r_min r /\ r_max r < Z.of_nat (length table)) ranges ->
  exists t',
    fill_table ranges table = Return t'
    /\ length t' = length table
    /\ nth_error t' j
       = match find (covers (Z.of_nat j)) (rev ranges) with
         | Some r => Some (Some (r_a r, r_b r))
         | None => nth_error table j
         end.
Proof.
  unfold fill_table. revert table.
  induction ranges as [|r ranges IH]; intros table HF; cbn [for_each rev].
  - eexists. repeat split.
  - inversion HF as [|? ? [Hmin Hmax] HF']; subst.
    destruct (fill_inner_nth (range (r_min r) (r_max r + 1))
                (Some (r_a r, r_b r)) table j) as (t1 & -> & Hlen & Hn).
    { apply Forall_forall. intros d Hd. apply In_range in Hd. lia. }
    destruct (IH t1) as (t2 & -> & Hlen2 & Hn2); [rewrite Hlen; exact HF'|].
    exists t2. split; [reflexivity|]. split; [congruence|].
    rewrite Hn2, find_snoc.
    destruct (find (covers (Z.of_nat j)) (rev ranges)); [reflexivity|].
    rewrite Hn, existsb_range. unfold covers.
    replace (Z.of_nat j <? r_max r + 1) with (Z.of_nat j <=? r_max r);
      [destruct ((r_min r <=? Z.of_nat j) && (Z.of_nat j <=? r_max r));
       reflexivity|].
    destruct (Z.leb_spec (Z.of_nat j) (r_max r)),
             (Z.ltb_spec (Z.of_nat j) (r_max r + 1)); try reflexivity; lia.
Qed.

Lemma table_lookup_last_covering (ranges : list DistanceRange) (d : Z) :
  ranges <> [] ->
  Forall (fun r => 0 <= r_min r) ranges ->
  0 <= d ->
  table_lookup ranges d
  = match find (covers d) (rev ranges) with
    | Some r => Found (r_a r) (r_b r)
    | None => OutOfRange
    end.
Proof.
  intros Hne Hmin Hd. unfold table_lookup.
  destruct ranges as [|r0 ranges]; [congruence|].
  cbn [map max_of bind].
  set (M := fold_left Z.max (map r_max ranges) (r_max r0)).
  assert (Hub : Forall (fun r => r_max r <= M) (r0 :: ranges)).
  { destruct (fold_left_max_ge (map r_max ranges) (r_max r0)) as [H1 H2].
    constructor; [exact H1|]. rewrite Forall_map in H2. exact H2. }
  destruct (Z.leb_spec d M) as [HdM|HdM].
  - destruct (fill_table_nth (r0 :: ranges)
                (repeat None (Z.to_nat (M + 1))) (Z.to_nat d))
      as (t' & -> & Hlen & Hn).
    { rewrite repeat_length. rewrite Forall_forall in *. intros r Hr.
      specialize (Hmin r Hr). specialize (Hub r Hr). simpl in Hub. lia. }
    cbn [bind]. unfold getitem.
    destruct (Z.ltb_spec d 0); [lia|].
    destruct (Z.ltb_spec d 0); [lia|].
    rewrite Hn, Z2Nat.id by lia.
    destruct (find (covers d) (rev (r0 :: ranges))); [reflexivity|].
    rewrite nth_error_repeat by lia. reflexivity.
  - destruct (fill_table_ok (r0 :: ranges) (repeat None (Z.to_nat (M + 1))))
      as (t' & -> & _).
    { rewrite repeat_length. rewrite Forall_forall in *. intros r Hr.
      specialize (Hmin r Hr). specialize (Hub r Hr). simpl in Hub. lia. }
    cbn [bind].
    destruct (find (covers d) (rev (r0 :: ranges))) as [r|] eqn:E;
      [|reflexivity].
    apply find_some in E. destruct E as [Hr Hc]. apply in_rev in Hr.
    rewrite Forall_forall in Hub. specialize (Hub r Hr). simpl in Hub.
    unfold covers in Hc. apply andb_true_iff in Hc. lia.
Qed.

(** The lookup table, for a schedule with non-negative [min] values and a
    non-negative distance: the table resolves the distance to the last entry
    in sorted order whose interval [[min, max]] holds it (a later entry
    overwrites an earlier one on the meters they share), and reports the
    distance out of range when no interval holds it, also when it falls into
    a gap between two entries. *)
Theorem table_lookup_last_interval (ranges : list DistanceRange) (d : Z) :
  ranges <> [] ->
  Forall (fun r => 0 <= r_min r) ranges ->
  0 <= d ->
  lookup O_1 (sort_ranges ranges) d
  = match find (covers d) (rev (sort_ranges ranges)) with
    | Some r => Found (r_a r) (r_b r)
    | None => OutOfRange
    end.
Proof.
  intros Hne Hmin Hd. cbn [lookup].
  apply table_lookup_last_covering; [|apply sorted_Forall, Hmin|exact Hd].
  intros E. apply (f_equal (@length _)) in E.
  unfold sort_ranges in E. rewrite sorted_length in E.
  destruct ranges; [congruence|discriminate].
Qed.

Lemma table_lookup_last_interval_witness :
  lookup O_1 (sort_ranges [mkRange 0 500 0 0; mkRange 600 1000 100 0;
                           mkRange 1000 0 0 0]) 550
  = OutOfRange.
Proof.
  rewrite (table_lookup_last_interval
             [mkRange 0 500 0 0; mkRange 600 1000 100 0; mkRange 1000 0 0 0]
             550).
  - reflexivity.
  - discriminate.
  - repeat constructor; simpl; lia.
  - lia.
Defined.

(* --------------------------------------------------------------------- *)
(** *** The binary search in general *)

(** What the bisection loop keeps, on any list, sorted or not: the element
    left of [lo] is at most [x], the element at [hi] is above [x]. *)
Lemma bisect_loop_neighbours (a : list Z) (x : Z) (fuel lo hi i : nat) :
  (lo <= hi)%nat ->
  (forall v, lo <> 0%nat -> nth_error a (lo - 1) = Some v -> v <= x) ->
  (forall v, nth_error a hi = Some v -> x < v) ->
  bisect_loop fuel a x lo hi = Some i ->
  (forall v, i <> 0%nat -> nth_error a (i - 1) = Some v -> v <= x)
  /\ (forall v, nth_error a i = Some v -> x < v).
Proof.
  revert lo hi. induction fuel as [|fuel IH]; intros lo hi Hle Hlo Hhi;
    cbn [bisect_loop]; [discriminate|].
  destruct (Nat.ltb_spec lo hi) as [Hlt|Hge].
  - assert (Hmid : (lo <= (lo + hi) / 2 < hi)%nat).
    { pose proof (Nat.div_mod_eq (lo + hi) 2) as E.
      pose proof (Nat.mod_upper_bound (lo + hi) 2). lia. }
    destruct (nth_error a ((lo + hi) / 2)) as [v|] eqn:Hn; [|discriminate].
    destruct (Z.ltb_spec x v) as [Hxv|Hxv].
    + apply IH; [lia|exact Hlo|]. intros w Hw. congruence.
    + apply IH; [lia| |exact Hhi]. intros w _ Hw.
      replace (S ((lo + hi) / 2) - 1)%nat with ((lo + hi) / 2)%nat in Hw by lia.
      congruence.
  - intros H; inversion H; subst i.
    assert (lo = hi) by lia. subst hi. split; [exact Hlo|exact Hhi].
Qed.

(** The binary search, on any schedule: when it finds values, they are those
    of an entry whose [max] is at most the distance and whose successor in
    sorted order has a [max] above the distance; or, when the distance is
    below the [max] of the first entry, the values of the last entry of the
    sorted schedule, reached through the index [-1]. *)
Theorem binary_search_tier_below (ranges : list DistanceRange) (d a b : Z) :
  lookup O_Log_n (sort_ranges ranges) d = Found a b ->
  (exists i r next,
      nth_error (sort_ranges ranges) i = Some r
      /\ nth_error (sort_ranges ranges) (S i) = Some next
      /\ r_max r <= d < r_max next
      /\ a = r_a r /\ b = r_b r)
  \/ (exists first last,
         nth_error (sort_ranges ranges) 0 = Some first
         /\ nth_error (sort_ranges ranges) (length ranges - 1) = Some last
         /\ d < r_max first
         /\ a = r_a last /\ b = r_b last).
Proof.
  cbn [lookup]. set (S0 := sort_ranges ranges).
  assert (HlenS : length S0 = length ranges)
    by (unfold S0, sort_ranges; apply sorted_length).
  unfold binary_search, bisect_right.
  destruct (bisect_loop _ (map r_max S0) d 0 (length (map r_max S0)))
    as [i|] eqn:Hb; [|discriminate].
  assert (Hinv := bisect_loop_neighbours (map r_max S0) d
                    (S (length (map r_max S0))) 0 (length (map r_max S0)) i
                    (Nat.le_0_l _)).
  destruct Hinv as [Hleft Hright]; [intros; lia| |exact Hb|].
  { intros v Hv.
    assert (E : nth_error (map r_max S0) (length (map r_max S0)) = None)
      by (apply nth_error_None; lia).
    congruence. }
  destruct (bisect_loop_total (map r_max S0) d (S (length (map r_max S0))) 0
              (length (map r_max S0))) as (i' & Hi' & Hr); [lia|lia|].
  rewrite Hb in Hi'. inversion Hi'; subst i'. rewrite length_map in *.
  destruct (Nat.eqb_spec i (length S0)) as [|Hne]; [discriminate|].
  assert (Hi : (i < length S0)%nat) by lia.
  destruct (nth_error S0 i) as [next|] eqn:Enext;
    [|apply nth_error_None in Enext; lia].
  assert (Hnext : d < r_max next).
  { apply Hright. rewrite nth_error_map, Enext. reflexivity. }
  unfold getitem.
  destruct i as [|i].
  - (* index 0: the entry at -1 *)
    replace (Z.of_nat 0 - 1 <? 0) with true by reflexivity.
    replace (Z.of_nat 0 - 1 + Z.of_nat (length S0))
      with (Z.of_nat (length S0 - 1)) by lia.
    destruct (Z.ltb_spec (Z.of_nat (length S0 - 1)) 0); [lia|].
    rewrite Nat2Z.id.
    destruct (nth_error S0 (length S0 - 1)) as [lst|] eqn:El; [|discriminate].
    intros Hf; inversion Hf; subst. right. exists next, lst.
    rewrite <- HlenS. auto.
  - destruct (Z.ltb_spec (Z.of_nat (S i) - 1) 0); [lia|].
    destruct (Z.ltb_spec (Z.of_nat (S i) - 1) 0); [lia|].
    replace (Z.to_nat (Z.of_nat (S i) - 1)) with i by lia.
    destruct (nth_error S0 i) as [r|] eqn:Er; [|discriminate].
    intros Hf; inversion Hf; subst. left. exists i, r, next.
    repeat split; auto.
    apply Hleft; [lia|]. replace (S i - 1)%nat with i by lia.
    rewrite nth_error_map, Er. reflexivity.
Qed.

Lemma binary_search_tier_below_witness :
  (exists i r next,
      nth_error (sort_ranges test_schedule) i = Some r
      /\ nth_error (sort_ranges test_schedule) (S i) = Some next
      /\ r_max r <= 1200 < r_max next
      /\ 100 = r_a r /\ 0 = r_b r)
  \/ (exists first last,
         nth_error (sort_ranges test_schedule) 0 = Some first
         /\ nth_error (sort_ranges test_schedule) (length test_schedule - 1)
            = Some last
         /\ 1200 < r_max first
         /\ 100 = r_a last /\ 0 = r_b last).
Proof.
  apply (binary_search_tier_below test_schedule 1200 100 0).
  vm_compute. reflexivity.
Defined.

(* ===================================================================== *)
(** ** Further properties of [calculate_distance] *)
(* ===================================================================== *)

Section DistanceMore.
Local Open Scope R_scope.

Lemma Int_part_nonneg (x : R) : 0 <= x -> (0 <= Int_part x)%Z.
Proof.
  intros Hx. destruct (base_Int_part x) as [_ H].
  assert (IZR (-1) < IZR (Int_part x)) by (simpl; lra).
  apply lt_IZR in H0. lia.
Qed.

Lemma round_bounds (x : R) :
  (Int_part x <= Geo.round x <= Int_part x + 1)%Z
  /\ (x = IZR (Int_part x) -> Geo.round x = Int_part x).
Proof.
  unfold Geo.round. cbv zeta.
  destruct (Rlt_dec (x - IZR (Int_part x)) (1 / 2)) as [H|H].
  - split; [lia|reflexivity].
  - split.
    + destruct (Rlt_dec (1 / 2) (x - IZR (Int_part x)));
        [|destruct (Z.even (Int_part x))]; lia.
    + intros E. exfalso. apply H. rewrite <- E. lra.
Qed.

Lemma round_nonneg (x : R) : 0 <= x -> (0 <= Geo.round x)%Z.
Proof.
  intros Hx. pose proof (Int_part_nonneg x Hx).
  destruct (round_bounds x) as [? _]. lia.
Qed.

Lemma round_le (x : R) (B : Z) : x <= IZR B -> (Geo.round x <= B)%Z.
Proof.
  intros Hx. destruct (base_Int_part x) as [Hlo Hhi].
  destruct (round_bounds x) as [Hb Hexact].
  assert (Hle : (Int_part x <= B)%Z) by (apply le_IZR; lra).
  destruct (Z.eq_dec (Int_part x) B) as [E|Hne]; [|lia].
  rewrite Hexact; [lia|]. rewrite E in *. lra.
Qed.

Lemma atan2_quadrant (y x : R) :
  0 <= y -> 0 <= x -> 0 <= Geo.atan2 y x <= PI / 2.
Proof.
  intros Hy Hx. pose proof PI2_RGT_0 as Hpi. unfold Geo.atan2.
  destruct (Rlt_dec 0 x) as [Hx0|Hx0].
  - destruct (atan_bound (y / x)) as [_ Hub]. split; [|lra].
    assert (Hq : 0 <= y / x) by (apply Rle_mult_inv_pos; assumption).
    destruct Hq as [Hq|Hq].
    + pose proof (atan_increasing 0 (y / x) Hq) as Hi.
      rewrite atan_0 in Hi. lra.
    + rewrite <- Hq, atan_0. lra.
  - destruct (Rlt_dec x 0); [lra|].
    destruct (Rlt_dec 0 y); [lra|].
    destruct (Rlt_dec y 0); lra.
Qed.

Lemma math_sqrt_Return (x s : R) : Geo.math_sqrt x = Return s -> 0 <= s.
Proof.
  unfold Geo.math_sqrt. destruct (Rlt_dec x 0); [discriminate|].
  intros H; inversion H. apply sqrt_pos.
Qed.

Lemma haversine_m_range lat_a lon_a lat_b lon_b (m : R) :
  Geo.haversine_m lat_a lon_a lat_b lon_b = Return m ->
  0 <= m <= 6371 * 1000 * PI.
Proof.
  unfold Geo.haversine_m. cbv zeta.
  set (a := sin _ ^ 2 + _).
  destruct (Geo.math_sqrt a) as [sa|e] eqn:Ea; cbn [bind]; [|discriminate].
  destruct (Geo.math_sqrt (1 - a)) as [sb|e] eqn:Eb; cbn [bind];
    [|discriminate].
  intros H; injection H as <-.
  destruct (atan2_quadrant sa sb (math_sqrt_Return _ _ Ea)
              (math_sqrt_Return _ _ Eb)).
  split; nra.
Qed.

Lemma simple_m_range lat_a lon_a lat_b lon_b (m : R) :
  Geo.simple_m lat_a lon_a lat_b lon_b = Return m -> 0 <= m.
Proof.
  unfold Geo.simple_m. cbv zeta.
  destruct (Geo.math_sqrt _) as [s|e] eqn:E; cbn [bind]; [|discriminate].
  intros H; injection H as <-.
  pose proof (math_sqrt_Return _ _ E). lra.
Qed.

(** Whatever the coordinates and the method, the distance returned is never
    negative: the two formulas end in a square root or in an angle of the
    first quadrant, and every failure returns 0. *)
Theorem calculate_distance_nonnegative
    (user_lat user_lon venue_lat venue_lon : R) (method : Z) :
  (0 <= fst (fst (Geo.calculate_distance user_lat user_lon venue_lat
                    venue_lon method)))%Z.
Proof.
  unfold Geo.calculate_distance.
  destruct (method =? HAVERSINE)%Z.
  - destruct (Geo.haversine_m _ _ _ _) as [m|e] eqn:E; cbn [fst];
      [|cbn; lia].
    apply round_nonneg. apply haversine_m_range in E. lra.
  - destruct (method =? SIMPLE)%Z; [|cbn; lia].
    destruct (Geo.simple_m _ _ _ _) as [m|e] eqn:E; cbn [fst]; [|cbn; lia].
    apply round_nonneg. apply simple_m_range in E. exact E.
Qed.

Lemma PI_upper_bound : PI <= 3.1416.
Proof.
  destruct (PI_2_3_7_ineq 2) as [_ H].
  unfold PI_2_3_7_tg, tg_alt, Ratan_seq in H. simpl in H. lra.
Qed.

(** Under the haversine method the distance never exceeds half the
    circumference of the sphere of radius 6371000 m: at most 20015134 m
    (the bound uses [PI <= 3.1416]). *)
Theorem haversine_at_most_half_circumference
    (user_lat user_lon venue_lat venue_lon : R) :
  (fst (fst (Geo.calculate_distance user_lat user_lon venue_lat venue_lon
               HAVERSINE)) <= 20015134)%Z.
Proof.
  unfold Geo.calculate_distance. cbn [Z.eqb HAVERSINE Pos.eqb].
  destruct (Geo.haversine_m _ _ _ _) as [m|e] eqn:E; cbn [fst]; [|cbn; lia].
  apply round_le. apply haversine_m_range in E.
  pose proof PI_upper_bound. simpl. lra.
Qed.

(** The planar method scales the longitude difference by the cosine of the
    user's latitude only, so exchanging the two points can change the result;
    it does not when they share the latitude or the longitude: then the two
    calls return the same distance, status and message. *)
Theorem simple_aligned_points (user_lat user_lon venue_lat venue_lon : R) :
  user_lat = venue_lat \/ user_lon = venue_lon ->
  Geo.calculate_distance user_lat user_lon venue_lat venue_lon SIMPLE
  = Geo.calculate_distance venue_lat venue_lon user_lat user_lon SIMPLE.
Proof.
  intros H. unfold Geo.calculate_distance. cbn [Z.eqb SIMPLE HAVERSINE].
  assert (E : Geo.simple_m user_lat user_lon venue_lat venue_lon
              = Geo.simple_m venue_lat venue_lon user_lat user_lon).
  { unfold Geo.simple_m. cbv zeta.
    replace (((venue_lon - user_lon) * 111.32 * cos (Geo.radians user_lat)) ^ 2
             + ((venue_lat - user_lat) * 111.32) ^ 2)
      with (((user_lon - venue_lon) * 111.32 * cos (Geo.radians venue_lat)) ^ 2
            + ((user_lat - venue_lat) * 111.32) ^ 2); [reflexivity|].
    destruct H as [->| ->]; ring. }
  rewrite E. reflexivity.
Qed.

Lemma simple_aligned_points_witness :
  Geo.calculate_distance 52 13 53 13 SIMPLE
  = Geo.calculate_distance 53 13 52 13 SIMPLE.
Proof.
  apply (simple_aligned_points 52 13 53 13). right. reflexivity.
Defined.

End DistanceMore.

(* ===================================================================== *)
(** ** Properties of the input validation *)
(* ===================================================================== *)

Section ValidatorFacts.
Import PyVal Validator.
Variable float_repr : Q -> string.
Variable container_repr : value -> string.

Ltac validator_cases :=
  cbn [bind negb]; repeat split; intros; unfold SUCCESS, FAILURE in *;
  try congruence; try tauto;
  try (exfalso; intuition congruence).

Lemma slug_check (v : value) :
  negb (truthy v) || negb (isinstance_str v) = false
  <-> exists s, v = VStr s /\ s <> EmptyString.
Proof.
  split.
  - destruct v as [|b|z|x|s|items|items];
      try (cbn [isinstance_str negb]; rewrite orb_true_r; discriminate).
    cbn. destruct (String.eqb_spec s EmptyString) as [->|Hs]; [discriminate|].
    intros _. exists s. auto.
  - intros (s & -> & Hs). cbn.
    destruct (String.eqb_spec s EmptyString); [contradiction|reflexivity].
Qed.

Lemma cart_check (v : value) :
  isinstance_int v = true ->
  exists negative,
    lt_int v 0 = Return negative
    /\ (negative = false
        <-> (exists z, v = VInt z /\ 0 <= z) \/ (exists b, v = VBool b)).
Proof.
  destruct v; try discriminate; intros _; cbn.
  - eexists. split; [reflexivity|]. split; [eauto|].
    intros _. destruct b; reflexivity.
  - eexists. split; [reflexivity|].
    unfold Qle_bool. cbn. rewrite Z.mul_1_r. rewrite negb_false_iff.
    rewrite Z.leb_le. split.
    + intros H. left. exists z. auto.
    + intros [(z' & E & H)|(b & E)]; [|discriminate].
      injection E as <-. exact H.
Qed.

Lemma between_number (lo hi : Z) (v : value) (x : Double.float) :
  number v = Some x ->
  between lo v hi
  = Return (float_le (Double.Finite (inject_Z lo)) x
            && float_le x (Double.Finite (inject_Z hi))).
Proof.
  intros H. unfold between, int_le, le_int. rewrite H. cbn [bind].
  destruct (float_le (Double.Finite (inject_Z lo)) x); reflexivity.
Qed.

Lemma between_not_number (lo hi : Z) (v : value) :
  number v = None ->
  between lo v hi = Raise (unsupported "<=" "int" (type_name v)).
Proof.
  intros H. unfold between, int_le. rewrite H. reflexivity.
Qed.

Lemma within_finite (lo hi : Z) (x : Double.float) :
  float_le (Double.Finite (inject_Z lo)) x
  && float_le x (Double.Finite (inject_Z hi)) = true
  <-> exists q, x = Double.Finite q
                /\ (inject_Z lo <= q)%Q /\ (q <= inject_Z hi)%Q.
Proof.
  destruct x as [q|negative|]; cbn [float_le].
  - rewrite andb_true_iff, !Qle_bool_iff. split.
    + intros [H1 H2]. exists q. auto.
    + intros (q' & E & H1 & H2). injection E as <-. auto.
  - split; [destruct negative; discriminate|].
    intros (q & E & _). discriminate.
  - split; [discriminate|]. intros (q & E & _). discriminate.
Qed.

(** The decision of [between] on any object. *)
Lemma between_decision (lo hi : Z) (v : value) :
  let within :=
    exists q, number v = Some (Double.Finite q)
              /\ (inject_Z lo <= q)%Q /\ (q <= inject_Z hi)%Q in
  (number v = None
   /\ between lo v hi = Raise (unsupported "<=" "int" (type_name v)))
  \/ (number v <> None /\ within /\ between lo v hi = Return true)
  \/ (number v <> None /\ ~ within /\ between lo v hi = Return false).
Proof.
  intros within. destruct (number v) as [x|] eqn:E.
  - right. rewrite (between_number lo hi v x E).
    pose proof (within_finite lo hi x) as W.
    destruct (float_le _ x && float_le x _).
    + left. split; [discriminate|]. split; [|reflexivity].
      destruct (proj1 W eq_refl) as (q & -> & H). exists q. auto.
    + right. split; [discriminate|]. split; [|reflexivity].
      intros (q & Eq & H). injection Eq as ->.
      assert (false = true) by (apply W; exists q; auto). discriminate.
  - left. split; [reflexivity|]. apply between_not_number, E.
Qed.

(** [validate_inputs] returns [SUCCESS] exactly for a non-empty [str], an
    [int] (or [bool]) that is not negative, and two numbers in
    [[-90, 90]] and [[-180, 180]].  The checks run in the order slug, cart
    value, latitude, longitude and the first that fails decides: a cart
    value that is not an [int], such as the float [10.0], is rejected; a
    coordinate that is no number at all is not rejected but raises the
    [TypeError] of the comparison, and only when the checks before it
    passed. *)
Theorem validate_inputs_decision
    (venue_slug cart_value user_lat user_lon : value) :
  let slug_ok := exists s, venue_slug = VStr s /\ s <> EmptyString in
  let cart_ok :=
    (exists z, cart_value = VInt z /\ 0 <= z)
    \/ (exists b, cart_value = VBool b) in
  let within lo v hi :=
    exists q, number v = Some (Double.Finite q)
              /\ (inject_Z lo <= q)%Q /\ (q <= inject_Z hi)%Q in
  let outcome :=
    validate_inputs float_repr container_repr
      venue_slug cart_value user_lat user_lon in
  (outcome = Return (SUCCESS, EmptyString)
   <-> slug_ok /\ cart_ok
       /\ within (-90) user_lat 90 /\ within (-180) user_lon 180)
  /\ (~ slug_ok ->
      outcome
      = Return (FAILURE,
                "Invalid venue_slug: It must be a non-empty string."%string))
  /\ (slug_ok -> ~ cart_ok ->
      outcome
      = Return (FAILURE,
                "Invalid cart value: It must be a non-negative integer."%string))
  /\ (slug_ok -> cart_ok -> number user_lat = None ->
      outcome = Raise (unsupported "<=" "int" (type_name user_lat)))
  /\ (slug_ok -> cart_ok ->
      number user_lat <> None -> ~ within (-90) user_lat 90 ->
      outcome
      = Return (FAILURE,
                ("Invalid latitude: "
                 ++ py_str float_repr container_repr user_lat
                 ++ ". It must be between -90 and 90.")%string))
  /\ (slug_ok -> cart_ok -> within (-90) user_lat 90 ->
      number user_lon = None ->
      outcome = Raise (unsupported "<=" "int" (type_name user_lon)))
  /\ (slug_ok -> cart_ok -> within (-90) user_lat 90 ->
      number user_lon <> None -> ~ within (-180) user_lon 180 ->
      outcome
      = Return (FAILURE,
                ("Invalid longitude: "
                 ++ py_str float_repr container_repr user_lon
                 ++ ". It must be between -180 and 180.")%string)).
Proof.
  intros slug_ok cart_ok within outcome.
  unfold outcome, validate_inputs, validate_venue_slug, validate_cart_value,
    validate_coordinates.
  pose proof (slug_check venue_slug) as Hslug. fold slug_ok in Hslug.
  destruct (negb (truthy venue_slug) || negb (isinstance_str venue_slug)).
  { assert (~ slug_ok) by (rewrite <- Hslug; discriminate).
    cbn [negb]. validator_cases. }
  assert (Hs : slug_ok) by (apply Hslug; reflexivity). cbn [negb].
  destruct (isinstance_int cart_value) eqn:Eint; cbn [negb bind].
  2:{ assert (~ cart_ok).
      { intros [(z & -> & _)|(b & ->)]; discriminate. }
      validator_cases. }
  destruct (cart_check cart_value Eint) as (negative & -> & Hcart).
  fold cart_ok in Hcart. cbn [bind].
  destruct negative; cbn [negb].
  { assert (~ cart_ok) by (rewrite <- Hcart; discriminate). validator_cases. }
  assert (Hc : cart_ok) by (apply Hcart; reflexivity).
  destruct (between_decision (-90) 90 user_lat)
    as [(Hn & ->)|[(Hn & Hw & ->)|(Hn & Hw & ->)]];
    fold (within (-90) user_lat 90) in *; cbn [bind negb].
  { assert (~ within (-90) user_lat 90).
    { intros (q & E & _). congruence. }
    validator_cases. }
  2:{ validator_cases. }
  destruct (between_decision (-180) 180 user_lon)
    as [(Hm & ->)|[(Hm & Hv & ->)|(Hm & Hv & ->)]];
    fold (within (-180) user_lon 180) in *; cbn [bind negb].
  - assert (~ within (-180) user_lon 180).
    { intros (q & E & _). congruence. }
    validator_cases.
  - validator_cases.
  - validator_cases.
Qed.

End ValidatorFacts.

Lemma validate_inputs_decision_witness :
  Validator.validate_inputs (fun _ => "10.0"%string) (fun _ => EmptyString)
    (PyVal.VStr "home-assignment-venue-berlin")
    (PyVal.VFloat (Double.Finite 10))
    (PyVal.VFloat (Double.Finite (525 # 10)))
    (PyVal.VFloat (Double.Finite (134 # 10)))
  = Return (FAILURE,
            "Invalid cart value: It must be a non-negative integer."%string).
Proof.
  destruct (validate_inputs_decision (fun _ => "10.0"%string)
              (fun _ => EmptyString)
              (PyVal.VStr "home-assignment-venue-berlin")
              (PyVal.VFloat (Double.Finite 10))
              (PyVal.VFloat (Double.Finite (525 # 10)))
              (PyVal.VFloat (Double.Finite (134 # 10))))
    as (_ & _ & Hcart & _).
  apply Hcart.
  - eexists. split; [reflexivity|discriminate].
  - intros [(z & E & _)|(b & E)]; discriminate.
Defined.

(* ===================================================================== *)
(** ** Properties of the venue processing *)
(* ===================================================================== *)

Section VenueFacts.
Import PyStr Json Venue.

Lemma getitem_last {A} (l : list A) (d : A) :
  l <> [] -> getitem l (-1) = Return (last l d).
Proof.
  intros Hne. destruct (exists_last Hne) as (l' & x & ->).
  rewrite last_last. unfold getitem. rewrite length_app. simpl length.
  replace (-1 <? 0) with true by reflexivity.
  replace (-1 + Z.of_nat (length l' + 1)) with (Z.of_nat (length l')) by lia.
  destruct (Z.ltb_spec (Z.of_nat (length l')) 0); [lia|].
  rewrite Nat2Z.id, nth_error_app2, Nat.sub_diag by lia. reflexivity.
Qed.

Lemma split_no_sep (sep : ascii) (s : string) :
  has_char sep s = false -> split sep s = [s].
Proof.
  induction s as [|c s IH]; cbn [has_char split]; [reflexivity|].
  intros H. apply orb_false_iff in H. destruct H as [Hc Hs].
  rewrite Hc, (IH Hs). reflexivity.
Qed.

Lemma split_after_sep (sep : ascii) (prefix city d : string) :
  has_char sep city = false ->
  exists piece pieces,
    split sep (prefix ++ String sep city) = piece :: pieces
    /\ pieces <> [] /\ last pieces d = city.
Proof.
  intros Hc. induction prefix as [|c p IH]; cbn [String.append split].
  - rewrite Ascii.eqb_refl, (split_no_sep sep city Hc).
    exists EmptyString, [city]. repeat split. discriminate.
  - destruct IH as (piece & pieces & E & Hne & Hl). rewrite E.
    destruct (Ascii.eqb c sep).
    + exists EmptyString, (piece :: pieces). repeat split; [discriminate|].
      destruct pieces; [congruence|exact Hl].
    + exists (String c piece), pieces. repeat split; assumption.
Qed.

Lemma venue_city_last_segment (prefix city : string) :
  has_char "-" city = false ->
  getitem (split "-" city) (-1) = Return city
  /\ getitem (split "-" (prefix ++ String "-" city)) (-1) = Return city.
Proof.
  intros Hc. split.
  - rewrite (split_no_sep _ _ Hc). reflexivity.
  - destruct (split_after_sep "-" prefix city EmptyString Hc)
      as (piece & pieces & -> & Hne & Hl).
    rewrite (getitem_last _ EmptyString) by discriminate.
    cbn [last]. destruct pieces; [congruence|]. rewrite Hl. reflexivity.
Qed.

Variable cities_acronym : string -> option string.
Variable countries_api : string -> option (string -> option string).
Variable str_lower : string -> string.

(** Only the part of the slug after its last ["-"] decides the country, and
    it is looked up as [str.lower] returns it: a slug [prefix-city] gives the
    result of the bare [city], which is the country the table holds for the
    lowered [city] with [SUCCESS], or the empty country with [FAILURE] when
    the table has no such city; the message spells the city as the slug
    does. *)
Theorem process_venue_slug_last_segment (prefix city : string) :
  has_char "-" city = false ->
  let outcome :=
    match cities_acronym (str_lower city) with
    | Some venue_country =>
        (venue_country, SUCCESS,
         ("Extracted country code '" ++ venue_country
          ++ "' for venue city '" ++ city ++ "'.")%string)
    | None =>
        (EmptyString, FAILURE,
         ("Invalid venue city extracted from slug: " ++ city)%string)
    end in
  process_venue_slug cities_acronym str_lower city = outcome
  /\ process_venue_slug cities_acronym str_lower (prefix ++ String "-" city)
     = outcome.
Proof.
  intros Hc outcome. unfold process_venue_slug.
  destruct (venue_city_last_segment prefix city Hc) as [-> ->].
  split; reflexivity.
Qed.

(** [location_api_link_return] gives both links or none: [SUCCESS] with the
    two links when the country has an entry holding ["static"] and
    ["dynamic"]; otherwise, also when only one of the two is missing, two
    empty links with [FAILURE]. *)
Theorem location_api_links_both_or_none (venue_country : string) :
  (exists links static_link dynamic_link,
      countries_api venue_country = Some links
      /\ links "static"%string = Some static_link
      /\ links "dynamic"%string = Some dynamic_link
      /\ location_api_link_return countries_api venue_country
         = (static_link, dynamic_link, SUCCESS,
            ("Retrieved API links for country code '" ++ venue_country
             ++ "'.")%string))
  \/ ((countries_api venue_country = None
       \/ exists links,
            countries_api venue_country = Some links
            /\ (links "static"%string = None \/ links "dynamic"%string = None))
      /\ exists message,
           location_api_link_return countries_api venue_country
           = (EmptyString, EmptyString, FAILURE, message)).
Proof.
  unfold location_api_link_return, api_links_error.
  destruct (countries_api venue_country) as [links|] eqn:E.
  - destruct (links "static"%string) as [s|] eqn:Es.
    + destruct (links "dynamic"%string) as [d|] eqn:Ed.
      * left. exists links, s, d. auto.
      * right. split; [right; exists links; auto|eexists; reflexivity].
    + right. split; [right; exists links; auto|eexists; reflexivity].
  - right. split; [left; reflexivity|eexists; reflexivity].
Qed.

End VenueFacts.

Lemma process_venue_slug_last_segment_witness :
  let cities := fun city : string =>
                  if String.eqb city "berlin" then Some "DE"%string else None in
  Venue.process_venue_slug cities PyStr.lower "home-assignment-venue-Berlin"
  = ("DE"%string, SUCCESS,
     "Extracted country code 'DE' for venue city 'Berlin'."%string).
Proof.
  intros cities.
  apply (proj2 (process_venue_slug_last_segment cities PyStr.lower
                  "home-assignment-venue" "Berlin" eq_refl)).
Defined.

Section ExtractFacts.
Import Json Venue.

(** [extract_static_coordinates] returns the first two items of
    [static_data["venue_raw"]["location"]["coordinates"]], the longitude
    first; a coordinate list with fewer than two items is reported through
    the last [except] clause; and every result without [SUCCESS] carries
    [FAILURE] and the coordinates [(0.0, 0.0)]. *)
Theorem extract_static_coordinates_outcome (static_data : json) :
  (forall top venue location lon lat rest,
      static_data = JDict top ->
      assoc "venue_raw" top = Some (JDict venue) ->
      assoc "location" venue = Some (JDict location) ->
      assoc "coordinates" location = Some (JList (lon :: lat :: rest)) ->
      extract_static_coordinates static_data
      = (lon, lat, SUCCESS,
         "Successfully extracted coordinates from static data."%string))
  /\ (forall top venue location items,
        static_data = JDict top ->
        assoc "venue_raw" top = Some (JDict venue) ->
        assoc "location" venue = Some (JDict location) ->
        assoc "coordinates" location = Some (JList items) ->
        (length items < 2)%nat ->
        extract_static_coordinates static_data
        = (JFloat 0, JFloat 0, FAILURE,
           "An unexpected error occurred: list index out of range"%string))
  /\ (forall lon lat status message,
        extract_static_coordinates static_data = (lon, lat, status, message) ->
        status <> SUCCESS ->
        status = FAILURE /\ lon = JFloat 0 /\ lat = JFloat 0).
Proof.
  split; [|split].
  - intros top venue location lon lat rest -> Hv Hl Hc.
    unfold extract_static_coordinates. cbn [getkey bind].
    rewrite Hv. cbn [getkey bind]. rewrite Hl. cbn [getkey bind]. rewrite Hc.
    reflexivity.
  - intros top venue location items -> Hv Hl Hc Hlen.
    unfold extract_static_coordinates. cbn [getkey bind].
    rewrite Hv. cbn [getkey bind]. rewrite Hl. cbn [getkey bind]. rewrite Hc.
    destruct items as [|x [|y items]]; [reflexivity|reflexivity|].
    simpl in Hlen. lia.
  - intros lon lat status message. unfold extract_static_coordinates.
    destruct (_ <- getkey static_data "venue_raw" ;; _) as [[lon' lat']|e].
    + intros H; inversion H; subst. congruence.
    + unfold static_error. destruct e; intros H; inversion H; subst; auto.
Qed.

Lemma extract_static_coordinates_witness :
  let static_data :=
    JDict [("venue_raw"%string,
            JDict [("location"%string,
                    JDict [("coordinates"%string,
                            JList [JFloat (134536149 # 10000000);
                                   JFloat (525003197 # 10000000)])])])] in
  extract_static_coordinates static_data
  = (JFloat (134536149 # 10000000), JFloat (525003197 # 10000000), SUCCESS,
     "Successfully extracted coordinates from static data."%string).
Proof.
  intros static_data.
  eapply (proj1 (extract_static_coordinates_outcome static_data));
    reflexivity.
Defined.

(** [extract_delivery_specs] returns the three values found under
    [venue_raw.delivery_specs] as they are; when the surcharge minimum is
    there but [delivery_pricing] is missing, the result is the [KeyError]
    failure naming that key; and every result without [SUCCESS] carries
    [FAILURE] and the values [0], [0] and the empty list. *)
Theorem extract_delivery_specs_outcome (dynamic_data : json) :
  (forall top venue specs pricing minimum base_price ranges,
      dynamic_data = JDict top ->
      assoc "venue_raw" top = Some (JDict venue) ->
      assoc "delivery_specs" venue = Some (JDict specs) ->
      assoc "order_minimum_no_surcharge" specs = Some minimum ->
      assoc "delivery_pricing" specs = Some (JDict pricing) ->
      assoc "base_price" pricing = Some base_price ->
      assoc "distance_ranges" pricing = Some ranges ->
      extract_delivery_specs dynamic_data
      = (minimum, base_price, ranges, SUCCESS,
         "Successfully extracted delivery specifications from dynamic data."%string))
  /\ (forall top venue specs minimum,
        dynamic_data = JDict top ->
        assoc "venue_raw" top = Some (JDict venue) ->
        assoc "delivery_specs" venue = Some (JDict specs) ->
        assoc "order_minimum_no_surcharge" specs = Some minimum ->
        assoc "delivery_pricing" specs = None ->
        extract_delivery_specs dynamic_data
        = (JInt 0, JInt 0, JList [], FAILURE,
           "Key error while accessing delivery specifications: 'delivery_pricing'"%string))
  /\ (forall minimum base_price ranges status message,
        extract_delivery_specs dynamic_data
        = (minimum, base_price, ranges, status, message) ->
        status <> SUCCESS ->
        status = FAILURE /\ minimum = JInt 0 /\ base_price = JInt 0
        /\ ranges = JList []).
Proof.
  split; [|split].
  - intros top venue specs pricing minimum base_price ranges
      -> Hv Hs Hm Hp Hb Hr.
    unfold extract_delivery_specs. cbn [getkey bind].
    rewrite Hv. cbn [getkey bind]. rewrite Hs. cbn [getkey bind].
    rewrite Hm, Hp. cbn [getkey bind]. rewrite Hb, Hr. reflexivity.
  - intros top venue specs minimum -> Hv Hs Hm Hp.
    unfold extract_delivery_specs. cbn [getkey bind].
    rewrite Hv. cbn [getkey bind]. rewrite Hs. cbn [getkey bind].
    rewrite Hm, Hp. reflexivity.
  - intros minimum base_price ranges status message.
    unfold extract_delivery_specs.
    destruct (_ <- getkey dynamic_data "venue_raw" ;; _) as [[[m b] r]|e].
    + intros H; inversion H; subst. congruence.
    + unfold specs_error. destruct e; intros H; inversion H; subst; auto.
Qed.

Lemma extract_delivery_specs_witness :
  let ranges := JList [JDict [("min"%string, JInt 0); ("max"%string, JInt 0);
                              ("a"%string, JInt 0); ("b"%string, JInt 0)]] in
  let dynamic_data :=
    JDict [("venue_raw"%string,
            JDict [("delivery_specs"%string,
                    JDict [("order_minimum_no_surcharge"%string, JInt 1000);
                           ("delivery_pricing"%string,
                            JDict [("base_price"%string, JInt 190);
                                   ("distance_ranges"%string, ranges)])])])] in
  extract_delivery_specs dynamic_data
  = (JInt 1000, JInt 190, ranges, SUCCESS,
     "Successfully extracted delivery specifications from dynamic data."%string)
  /\ extract_delivery_specs (JDict [("venue_raw"%string, JDict [])])
     = (JInt 0, JInt 0, JList [], FAILURE,
        "Key error while accessing delivery specifications: 'delivery_specs'"%string).
Proof.
  intros ranges dynamic_data. split.
  - eapply (proj1 (extract_delivery_specs_outcome dynamic_data));
      reflexivity.
  - destruct (extract_delivery_specs (JDict [("venue_raw"%string, JDict [])]))
      as [[[[m b] r] st] msg] eqn:E.
    destruct (proj2 (proj2 (extract_delivery_specs_outcome
                              (JDict [("venue_raw"%string, JDict [])])))
                m b r st msg E) as (-> & -> & -> & ->).
    + vm_compute in E. inversion E. discriminate.
    + vm_compute in E. inversion E. reflexivity.
Defined.

End ExtractFacts.

(* ===================================================================== *)
(** ** The single-file variant against the service modules *)
(* ===================================================================== *)

(** On a schedule of at least two entries that is already in sorted order the
    copy of [process_total_cost] in [main_simple.py] returns the same
    response and status as the one in [services/delivery_cost.py], for every
    method; the messages differ only when the distance is out of range.  The
    copy does not sort: when the first entry of the schedule it is given is a
    sentinel, its linear scan rejects every distance. *)
Theorem main_simple_process_total_cost
    cart dist minv base (ranges : list DistanceRange) method :
  (sort_ranges ranges = ranges -> (2 <= length ranges)%nat ->
   fst (MainSimple.process_total_cost cart dist minv base ranges method)
   = fst (process_total_cost cart dist minv base ranges method))
  /\ (forall s rest,
        ranges = s :: rest -> r_max s = 0 ->
        MainSimple.process_total_cost cart dist minv base ranges O_n
        = (None, FAILURE, MainSimple.out_of_range_message)).
Proof.
  split.
  - intros Hsorted Hlen.
    unfold MainSimple.process_total_cost, process_total_cost.
    rewrite Hsorted. destruct (getitem_long ranges Hlen) as [x ->].
    destruct (lookup method ranges dist); reflexivity.
  - intros s rest -> Hs. unfold MainSimple.process_total_cost.
    cbn [lookup]. rewrite linear_scan_sentinel by exact Hs. reflexivity.
Qed.

Lemma main_simple_process_total_cost_witness :
  fst (MainSimple.process_total_cost 1500 1200 1000 500 test_schedule O_Log_n)
  = fst (process_total_cost 1500 1200 1000 500 test_schedule O_Log_n)
  /\ MainSimple.process_total_cost 1500 1200 1000 500 (rev test_schedule) O_n
     = (None, FAILURE, MainSimple.out_of_range_message).
Proof.
  split.
  - apply (proj1 (main_simple_process_total_cost 1500 1200 1000 500
                    test_schedule O_Log_n)).
    + vm_compute. reflexivity.
    + simpl. lia.
  - eapply (proj2 (main_simple_process_total_cost 1500 1200 1000 500
                     (rev test_schedule) O_n)); reflexivity.
Defined.

(** The two copies of [validate_inputs] compared on any objects.  They
    agree on the status, and raise the same exception when they raise one,
    whenever the cart value is an [int] (or [bool]); both reject a slug that
    is not a non-empty [str].  They differ on a cart value that is not an
    [int]: the validator rejects it, while the copy compares it with 0, so it
    accepts a float that is not negative, such as [10.0], and raises a
    [TypeError] on an object that is no number. *)
Theorem validate_inputs_copies_compared
    (float_repr : Q -> string) (container_repr : PyVal.value -> string)
    (venue_slug cart_value user_lat user_lon : PyVal.value) :
  let service :=
    Validator.validate_inputs float_repr container_repr
      venue_slug cart_value user_lat user_lon in
  let copy :=
    MainSimple.validate_inputs venue_slug cart_value user_lat user_lon in
  let slug_ok := exists s, venue_slug = PyVal.VStr s /\ s <> EmptyString in
  let within lo v hi :=
    exists q, PyVal.number v = Some (Double.Finite q)
              /\ (inject_Z lo <= q)%Q /\ (q <= inject_Z hi)%Q in
  let rejected :=
    Return (FAILURE,
            "Invalid cart value: It must be a non-negative integer."%string) in
  (PyVal.isinstance_int cart_value = true ->
   status_of copy = status_of service)
  /\ (~ slug_ok ->
      status_of copy = Return FAILURE /\ status_of service = Return FAILURE)
  /\ (slug_ok -> within (-90) user_lat 90 -> within (-180) user_lon 180 ->
      forall x,
        cart_value = PyVal.VFloat x ->
        PyVal.float_lt x (Double.Finite 0) = false ->
        service = rejected /\ copy = Return (SUCCESS, EmptyString))
  /\ (slug_ok -> PyVal.number cart_value = None ->
      service = rejected
      /\ copy = Raise (PyVal.unsupported "<" (PyVal.type_name cart_value) "int")).
Proof.
  intros service copy slug_ok within rejected.
  unfold service, copy, rejected, MainSimple.validate_inputs,
    Validator.validate_inputs, Validator.validate_venue_slug,
    Validator.validate_cart_value, Validator.validate_coordinates.
  pose proof (slug_check venue_slug) as Hslug. fold slug_ok in Hslug.
  destruct (negb (PyVal.truthy venue_slug)
            || negb (PyVal.isinstance_str venue_slug)).
  { assert (~ slug_ok) by (rewrite <- Hslug; discriminate).
    cbn [negb bind status_of fst]. repeat split; intros; tauto. }
  assert (Hs : slug_ok) by (apply Hslug; reflexivity). cbn [negb].
  split; [|split; [tauto|split]].
  - (* an [int]: the same checks in the same order *)
    intros Eint. rewrite Eint. cbn [negb bind].
    destruct (cart_check cart_value Eint) as (negative & -> & _).
    cbn [bind]. destruct negative; cbn [negb bind]; [reflexivity|].
    destruct (between_decision (-90) 90 user_lat)
      as [(_ & ->)|[(_ & _ & ->)|(_ & _ & ->)]]; cbn [bind negb];
      try reflexivity.
    destruct (between_decision (-180) 180 user_lon)
      as [(_ & ->)|[(_ & _ & ->)|(_ & _ & ->)]]; cbn [bind negb];
      reflexivity.
  - (* a float that is not negative *)
    intros _ Hlat Hlon x -> Hx. cbn [PyVal.isinstance_int negb bind].
    split; [reflexivity|].
    unfold PyVal.lt_int. cbn [PyVal.number bind].
    change (inject_Z 0) with 0%Q. rewrite Hx.
    destruct (between_decision (-90) 90 user_lat)
      as [(Hn & _)|[(_ & _ & ->)|(_ & Hw & _)]].
    + destruct Hlat as (q & E & _). congruence.
    + cbn [bind negb].
      destruct (between_decision (-180) 180 user_lon)
        as [(Hn & _)|[(_ & _ & ->)|(_ & Hw & _)]].
      * destruct Hlon as (q & E & _). congruence.
      * reflexivity.
      * contradiction.
    + contradiction.
  - (* no number at all *)
    intros _ Hn.
    assert (Eint : PyVal.isinstance_int cart_value = false)
      by (destruct cart_value; try reflexivity; discriminate).
    rewrite Eint. cbn [negb bind]. split; [reflexivity|].
    unfold PyVal.lt_int. rewrite Hn. reflexivity.
Qed.

Lemma validate_inputs_copies_compared_witness :
  let inputs (f : PyVal.value -> PyVal.value -> PyVal.value -> PyVal.value
                  -> result (Z * string)) :=
    f (PyVal.VStr "home-assignment-venue-berlin")
      (PyVal.VFloat (Double.Finite 10))
      (PyVal.VFloat (Double.Finite (525 # 10)))
      (PyVal.VFloat (Double.Finite (134 # 10))) in
  inputs (Validator.validate_inputs (fun _ => EmptyString)
            (fun _ => EmptyString))
  = Return (FAILURE,
            "Invalid cart value: It must be a non-negative integer."%string)
  /\ inputs MainSimple.validate_inputs = Return (SUCCESS, EmptyString).
Proof.
  cbv zeta.
  destruct (validate_inputs_copies_compared (fun _ => EmptyString)
              (fun _ => EmptyString)
              (PyVal.VStr "home-assignment-venue-berlin")
              (PyVal.VFloat (Double.Finite 10))
              (PyVal.VFloat (Double.Finite (525 # 10)))
              (PyVal.VFloat (Double.Finite (134 # 10))))
    as (_ & _ & Hfloat & _).
  apply (Hfloat ltac:(eexists; split; [reflexivity|discriminate])
           ltac:(eexists; split; [reflexivity|split; discriminate])
           ltac:(eexists; split; [reflexivity|split; discriminate])
           (Double.Finite 10) eq_refl eq_refl).
Defined.

(* ===================================================================== *)
(** ** The pricing in double precision *)
(* ===================================================================== *)

















